(** * LocalRunner: the local task scheduler of opencompass/runners/local.py

    A shallow embedding of [LocalRunner.launch] and [LocalRunner._launch]:
    the discovery of the GPU inventory, the slot table [gpus] with its
    acquire loop and release, the execution of one task, the sequential
    debug mode, and the thread pool seen as a scheduler whose steps are the
    atomic sections of the workers. *)

From Stdlib Require Import ZArith Ascii String DecimalString DecimalNat.
From stdpp Require Import base numbers list strings.

Local Open Scope Z_scope.
Local Open Scope string_scope.
Local Open Scope list_scope.

(** ** Strings *)

Module Str.

(** The character classes the regular expression of [launch] uses.
    Strings are strings of bytes and [is_digit] is the class [\d] on ASCII
    text: the decimal digits outside ASCII, which [\d] matches too in a
    Python str, are not modelled. *)
Definition is_digit (c : ascii) : bool :=
  let n := nat_of_ascii c in (48 <=? n)%nat && (n <=? 57)%nat.

Definition is_minus (c : ascii) : bool := bool_decide (c = "-"%char).

Definition digit_value (c : ascii) : nat := (nat_of_ascii c - 48)%nat.

(** [int(s)] on a string of decimal digits.  The limit that recent
    versions of Python put on the length of the numeral is left out. *)
Definition int (ds : list ascii) : nat :=
  fold_left (fun acc c => (10 * acc + digit_value c)%nat) ds 0%nat.

(** [str(i)] for a non-negative integer. *)
Definition str (n : nat) : string := NilEmpty.string_of_uint (Nat.to_uint n).

(** [sep.join(parts)]. *)
Fixpoint join (sep : string) (parts : list string) : string :=
  match parts with
  | [] => ""
  | [p] => p
  | p :: ps => p +:+ sep +:+ join sep ps
  end.

(** [s.startswith(p)]. *)
Fixpoint startswith (p s : string) : bool :=
  match p, s with
  | EmptyString, _ => true
  | String a p', String b s' => bool_decide (a = b) && startswith p' s'
  | String _ _, EmptyString => false
  end.


Definition newline : string := String (ascii_of_nat 10) EmptyString.

(** [osp.split(p)[0]] of posixpath: everything up to the last slash, with
    the trailing slashes of that head removed unless it is made of slashes
    only. *)
Fixpoint rstrip_slash_rev (r : list ascii) : list ascii :=
  match r with
  | c :: r' => if bool_decide (c = "/"%char) then rstrip_slash_rev r' else r
  | [] => []
  end.

Fixpoint drop_tail_rev (r : list ascii) : list ascii :=
  match r with
  | c :: r' => if bool_decide (c = "/"%char) then r else drop_tail_rev r'
  | [] => []
  end.

Definition split_head (p : string) : string :=
  let head_rev := drop_tail_rev (rev (list_ascii_of_string p)) in
  let stripped := rstrip_slash_rev head_rev in
  string_of_list_ascii (rev (match stripped with [] => head_rev | _ => stripped end)).

End Str.

(** ** Discovery of the resource inventory (launch, lines 76-83) *)

Module Inventory.

(** [re.findall(r'(?<!-)\d+', s)], scanning left to right.  [prev] is the
    character before the current position and [cur] the match being
    extended, if any.  A match starts at a digit whose predecessor is not a
    minus sign, extends greedily over the digits that follow, and the search
    resumes where the match ended. *)
Fixpoint findall_from (prev : option ascii) (cur : option (list ascii))
    (s : string) : list (list ascii) :=
  match s with
  | EmptyString =>
      match cur with Some m => [m] | None => [] end
  | String c s' =>
      match cur with
      | Some m =>
          if Str.is_digit c then findall_from (Some c) (Some (m ++ [c])%list) s'
          else m :: findall_from (Some c) None s'
      | None =>
          if Str.is_digit c &&
             negb (match prev with Some p => Str.is_minus p | None => false end)
          then findall_from (Some c) (Some [c]) s'
          else findall_from (Some c) None s'
      end
  end.

Definition findall (s : string) : list (list ascii) := findall_from None None s.

(** [all_gpu_ids]: from CUDA_VISIBLE_DEVICES when the variable is set, else
    [range(torch.cuda.device_count())]. *)
Definition all_gpu_ids (cuda_visible_devices : option string)
    (device_count : nat) : list nat :=
  match cuda_visible_devices with
  | Some v => map Str.int (findall v)
  | None => seq 0 device_count
  end.

(** The reading of the specification: the maximal runs of digits of the
    value, keeping a run when the character before it is not a minus sign. *)
Fixpoint digit_runs_from (prev : option ascii) (cur : option (option ascii * list ascii))
    (s : string) : list (option ascii * list ascii) :=
  match s with
  | EmptyString =>
      match cur with Some r => [r] | None => [] end
  | String c s' =>
      match cur with
      | Some (b, m) =>
          if Str.is_digit c then digit_runs_from (Some c) (Some (b, (m ++ [c])%list)) s'
          else (b, m) :: digit_runs_from (Some c) None s'
      | None =>
          if Str.is_digit c then digit_runs_from (Some c) (Some (prev, [c])) s'
          else digit_runs_from (Some c) None s'
      end
  end.

Definition after_minus (r : option ascii * list ascii) : bool :=
  match r.1 with Some p => Str.is_minus p | None => false end.

Definition kept (rs : list (option ascii * list ascii)) : list nat :=
  map (fun r => Str.int r.2) (filter (fun r => after_minus r = false) rs).

Definition spec_ids (v : string) : list nat := kept (digit_runs_from None None v).

(** A value without any minus sign. *)
Fixpoint no_minus (s : string) : bool :=
  match s with
  | EmptyString => true
  | String c s' => negb (Str.is_minus c) && no_minus s'
  end.

Definition not_minus (prev : option ascii) : Prop :=
  match prev with Some p => Str.is_minus p = false | None => True end.

End Inventory.

(** ** The slot table (launch, lines 85-119) *)

Module Slots.

(** [gpus] is a numpy array of dtype [np.uint]: 64-bit unsigned counters,
    whose arithmetic wraps around. *)
Definition uint_modulus : Z := 2 ^ 64.

Definition to_uint (x : Z) : Z := x mod uint_modulus.

Definition np_zeros (n : nat) : list Z := replicate n 0.

(** [a[idx] = v] with an index array: every position listed in [idx] gets
    the value, cast to the element type.  numpy raises IndexError for an
    index outside the array; the runner only indexes with ids up to
    [max(all_gpu_ids)] and with the result of [np.where] on the same array
    (SlotsFacts.elem_of_np_where), so that case does not arise. *)
Definition assign_at (a : list Z) (idx : list nat) (v : Z) : list Z :=
  imap (fun i x => if bool_decide (i ∈ idx) then to_uint v else x) a.

(** [a[idx] += d] with an index array.  numpy reads [a[idx]], adds and
    writes back, so a position is changed once however often [idx] lists
    it. *)
Definition add_at (a : list Z) (idx : list nat) (d : Z) : list Z :=
  imap (fun i x => if bool_decide (i ∈ idx) then to_uint (x + d) else x) a.

(** Lines 85-89: the table is indexed by resource id up to the largest
    visible id; visible ids start at [max_workers_per_gpu], the others at 0. *)
Definition init_gpus (all_gpu_ids : list nat) (max_workers_per_gpu : Z) : list Z :=
  if bool_decide (0 < length all_gpu_ids)%nat
  then assign_at (np_zeros (max_list all_gpu_ids + 1)) all_gpu_ids max_workers_per_gpu
  else [].

(** [sum(gpus > 0)]. *)
Definition count_free (gpus : list Z) : Z :=
  Z.of_nat (length (filter (fun x => 0 < x) gpus)).

(** [np.where(gpus)[0]]: the indices of the non-zero entries, ascending. *)
Fixpoint where_from (i : nat) (a : list Z) : list nat :=
  match a with
  | [] => []
  | x :: a' =>
      if bool_decide (x ≠ 0) then i :: where_from (S i) a' else where_from (S i) a'
  end.

Definition np_where (a : list Z) : list nat := where_from 0 a.

(** [l[:n]] for a Python integer [n]: a negative [n] counts from the end. *)
Definition slice_to {A} (l : list A) (n : Z) : list A :=
  if bool_decide (n < 0)
  then take (Z.to_nat (Z.of_nat (length l) + n)) l
  else take (Z.to_nat n) l.

(** Line 97: [assert len(gpus) >= num_gpus]. *)
Definition fits_table (gpus : list Z) (num_gpus : Z) : bool :=
  bool_decide (Z.of_nat (length gpus) >= num_gpus).

(** Lines 100-106: one iteration of the acquire loop, under the lock.
    [Some (gpu_ids, gpus')] when the claim is granted, [None] when the
    worker releases the lock and sleeps. *)
Definition try_acquire (gpus : list Z) (num_gpus : Z) : option (list nat * list Z) :=
  if bool_decide (count_free gpus >= num_gpus)
  then
    let gpu_ids := slice_to (np_where gpus) num_gpus in
    Some (gpu_ids, add_at gpus gpu_ids (-1))
  else None.

(** The capacity of the whole table. *)
Definition total_capacity (gpus : list Z) : Z := foldr Z.add 0 gpus.

(** Lines 118-119: [gpus[gpu_ids] += 1] under the lock. *)
Definition release (gpus : list Z) (gpu_ids : list nat) : list Z :=
  add_at gpus gpu_ids 1.

End Slots.

(** ** Running one task (_launch, lines 129-171) *)

Module Exec.

Inductive exn : Type :=
  | AssertionError
  | ValueError
  | OSError
  | TaskError.

Inductive result (A : Type) : Type :=
  | Ok (a : A)
  | Raise (e : exn).
Arguments Ok {A} a.
Arguments Raise {A} e.

(** What the runner touches outside itself. *)
Inductive event : Type :=
  | Mkdir (dir : string)
  | Dump (path : string)
  | LogDebug (msg : string)
  | OpenW (path : string)
  | Spawn (cmd : string) (stdout : option string)
  | RunInProcess (task_name : string)
  | LogWarning (msg : string)
  | Remove (path : string).

(** The files that exist, and everything done so far, oldest first. *)
Record world : Type := World {
  files : list string;
  trace : list event;
}.

Definition empty_world : world := World [] [].

(** The task built by [TASKS.build]: its attributes and the two methods
    the runner calls.  [get_command cfg_path template] and
    [get_log_path file_extension] belong to the task classes. *)
Record Task : Type := MkTask {
  name : string;
  num_gpus : Z;
  get_command : string -> string -> string;
  get_log_path : string -> string;
}.

(** How the outside behaves during one execution: the child process
    either gives a return code or cannot be run and the call raises;
    [os.remove] may fail; [task.run()] may raise.  Creating directories,
    dumping the config, opening the log and logging are taken to succeed,
    and [files] follows what the runner itself creates and removes: what a
    child or a task does to the files is outside the model. *)
Record environment : Type := MkEnv {
  subprocess_run : string -> result Z;
  os_remove_fails : string -> bool;
  task_run : string -> result unit;
}.

(** Computations over the world that may raise. *)
Definition M (A : Type) : Type := world -> result A * world.

Definition ret {A} (a : A) : M A := fun w => (Ok a, w).

Definition bind {A B} (m : M A) (k : A -> M B) : M B :=
  fun w =>
    match m w with
    | (Ok a, w') => k a w'
    | (Raise e, w') => (Raise e, w')
    end.

Definition raise {A} (e : exn) : M A := fun w => (Raise e, w).

Definition emit (ev : event) : M unit :=
  fun w => (Ok tt, World (files w) (trace w ++ [ev])).

Definition add_file (p : string) (fs : list string) : list string :=
  if bool_decide (p ∈ fs) then fs else p :: fs.

Definition del_file (p : string) (fs : list string) : list string :=
  filter (fun q => q ≠ p) fs.

Module Import Notations.
  Notation "'do' x <- m ; k" := (bind m (fun x => k))
    (at level 10, x name, m at level 100, k at level 200).
  Notation "'exec' m ; k" := (bind m (fun _ => k))
    (at level 10, m at level 100, k at level 200).
End Notations.

Definition mkdir_or_exist (dir : string) : M unit := emit (Mkdir dir).

(** [task.cfg.dump(path)] *)
Definition dump (path : string) : M unit :=
  fun w => (Ok tt, World (add_file path (files w)) (trace w ++ [Dump path])).

(** [open(path, 'w')] *)
Definition open_w (path : string) : M unit :=
  fun w => (Ok tt, World (add_file path (files w)) (trace w ++ [OpenW path])).

(** [subprocess.run(cmd, shell=True, text=True, stdout=.., stderr=..)]:
    the return code, or the exception of a child that could not be run. *)
Definition run_subprocess (env : environment) (cmd : string)
    (stdout : option string) : M Z :=
  exec emit (Spawn cmd stdout);
  match subprocess_run env cmd with
  | Ok code => ret code
  | Raise e => raise e
  end.

(** [os.remove(path)] *)
Definition os_remove (env : environment) (path : string) : M unit :=
  if os_remove_fails env path then raise OSError
  else fun w => (Ok tt, World (del_file path (files w)) (trace w ++ [Remove path])).

Definition logger_debug (msg : string) : M unit := emit (LogDebug msg).
Definition logger_warning (msg : string) : M unit := emit (LogWarning msg).

(** Line 143: [f'tmp/{os.getpid()}_{index}_params.py'] *)
Definition param_file_of (pid index : nat) : string :=
  "tmp/" +:+ Str.str pid +:+ "_" +:+ Str.str index +:+ "_params.py".

(** Lines 147-148: the template handed to [task.get_command]. *)
Definition launch_template (gpu_ids : list nat) : string :=
  let tmpl := "CUDA_VISIBLE_DEVICES=" +:+ Str.join "," (map Str.str gpu_ids) in
  tmpl +:+ " {task_cmd}".

Definition launch_command (pid : nat) (task : Task) (gpu_ids : list nat)
    (index : nat) : string :=
  get_command task (param_file_of pid index) (launch_template gpu_ids).

Definition fail_warning (task_name out_path : string) : string :=
  "task " +:+ task_name +:+ " fail, see" +:+ Str.newline +:+ out_path.

Definition _launch (pid : nat) (env : environment) (task : Task)
    (gpu_ids : list nat) (index : nat) : M (string * Z) :=
  let task_name := name task in
  exec mkdir_or_exist "tmp/";
  let param_file := param_file_of pid index in
  exec dump param_file;
  let cmd := launch_command pid task gpu_ids index in
  exec logger_debug ("Running command: " +:+ cmd);
  let out_path := get_log_path task "out" in
  exec mkdir_or_exist (Str.split_head out_path);
  exec open_w out_path;
  do returncode <- run_subprocess env cmd (Some out_path);
  exec (if bool_decide (returncode ≠ 0)
      then logger_warning (fail_warning task_name out_path)
      else ret tt);
  exec os_remove env param_file;
  ret (task_name, returncode).

End Exec.

(** ** Debug mode (launch, lines 58-74) *)

Module DebugMode.
Import Exec Exec.Notations.

(** Line 64: [f'tmp/{os.getpid()}_params.py'] *)
Definition param_file_of (pid : nat) : string :=
  "tmp/" +:+ Str.str pid +:+ "_params.py".

Definition run_in_process (env : environment) (task : Task) : M unit :=
  exec emit (RunInProcess (name task));
  match task_run env (name task) with
  | Ok _ => ret tt
  | Raise e => raise e
  end.

(** The body of the loop, lines 60-74, giving the pair it appends. *)
Definition debug_one (pid : nat) (env : environment) (task : Task) : M (string * Z) :=
  let task_name := name task in
  exec mkdir_or_exist "tmp/";
  let param_file := param_file_of pid in
  exec dump param_file;
  let cmd := get_command task param_file "{task_cmd}" in
  exec (if Str.startswith "python" cmd
        then run_in_process env task
        else do _returncode <- run_subprocess env cmd None; ret tt);
  exec os_remove env param_file;
  ret (task_name, 0).

Fixpoint launch_loop (pid : nat) (env : environment) (tasks : list Task)
    (status : list (string * Z)) : M (list (string * Z)) :=
  match tasks with
  | [] => ret status
  | task :: tasks' =>
      do r <- debug_one pid env task;
      launch_loop pid env tasks' (status ++ [r])%list
  end.

Definition launch (pid : nat) (env : environment) (tasks : list Task)
    : M (list (string * Z)) :=
  launch_loop pid env tasks [].

(** Nothing raises while [task] is handled: its command runs, in process
    or as a child with whatever return code, and the file is removed. *)
Definition calm (pid : nat) (env : environment) (task : Task) : bool :=
  let cmd := get_command task (param_file_of pid) "{task_cmd}" in
  (if Str.startswith "python" cmd
   then match task_run env (name task) with Ok _ => true | Raise _ => false end
   else match subprocess_run env cmd with Ok _ => true | Raise _ => false end)
  && negb (os_remove_fails env (param_file_of pid)).

(** The status debug mode builds. *)
Definition all_zero (tasks : list Task) : list (string * Z) :=
  map (fun task => (name task, 0)) tasks.

End DebugMode.

(** ** The worker pool (launch, lines 91-127)

    [DebugMode.launch] above is the branch [if self.debug] of [launch];
    this module is the other branch. *)

Module Sched.
Import Exec.

Record LocalRunner : Type := MkRunner {
  max_num_workers : Z;
  max_workers_per_gpu : Z;
}.

Record host : Type := MkHost {
  cuda_visible_devices : option string;
  device_count : nat;
  getpid : nat;
}.

(** Where the call [submit(task, index)] of one task stands. *)
Inductive worker : Type :=
  | Queued
  | Polling (sleeps : nat)
  | Running (gpu_ids : list nat)
  | Launched (gpu_ids : list nat) (res : string * Z)
  | Done (res : string * Z)
  | Rejected
  | Crashed (e : exn) (gpu_ids : list nat).

Inductive sched_event : Type :=
  | EvAcquire (index : nat) (gpu_ids : list nat)
  | EvSleep (index : nat)
  | EvWrite (msg : string)
  | EvProgress
  | EvRelease (index : nat) (gpu_ids : list nat).

Record state : Type := State {
  gpus : list Z;
  workers : list worker;
  world : Exec.world;
  log : list sched_event;
}.

(** The atomic sections of [submit]; the scheduler of the thread pool
    chooses which worker advances next.  [_launch] does not touch [gpus],
    so it is one step; the behaviour of the outside during it comes with
    the action. *)
Inductive action : Type :=
  | Start (index : nat)
  | Poll (index : nat)
  | Launch (index : nat) (env : environment)
  | Release (index : nat).

Definition initial (r : LocalRunner) (h : host) (tasks : list Task) : state :=
  State
    (Slots.init_gpus
       (Inventory.all_gpu_ids (cuda_visible_devices h) (device_count h))
       (max_workers_per_gpu r))
    (replicate (length tasks) Queued)
    empty_world
    [].

(** A thread of the pool is occupied from the start of [submit] to its
    return. *)
Definition busy (w : worker) : bool :=
  match w with
  | Polling _ | Running _ | Launched _ _ => true
  | _ => false
  end.

Definition started (w : worker) : bool :=
  match w with Queued => false | _ => true end.

Definition in_flight (ws : list worker) : Z :=
  Z.of_nat (length (filter (fun w => busy w) ws)).

(** Lines 109-113. *)
Definition launch_message (task : Task) (gpu_ids : list nat) : string :=
  if bool_decide (num_gpus task > 0)
  then "launch " +:+ name task +:+ " on GPU " +:+ Str.join "," (map Str.str gpu_ids)
  else "launch " +:+ name task +:+ " on CPU ".

Definition submit_step (r : LocalRunner) (h : host) (tasks : list Task)
    (a : action) (s : state) : option state :=
  match a with
  | Start i =>
      (* a free thread takes the next work item of the queue; lines 95-97 *)
      task ← tasks !! i;
      w ← workers s !! i;
      match w with
      | Queued =>
          if forallb started (take i (workers s))
             && bool_decide (in_flight (workers s) < max_num_workers r)
          then
            if Slots.fits_table (gpus s) (num_gpus task)
            then Some (State (gpus s) (<[i := Polling 0]> (workers s)) (world s) (log s))
            else Some (State (gpus s) (<[i := Rejected]> (workers s)) (world s) (log s))
          else None
      | _ => None
      end
  | Poll i =>
      (* one iteration of the loop, lines 99-107, then lines 109-113 *)
      task ← tasks !! i;
      w ← workers s !! i;
      match w with
      | Polling sleeps =>
          match Slots.try_acquire (gpus s) (num_gpus task) with
          | Some (gpu_ids, gpus') =>
              Some (State gpus' (<[i := Running gpu_ids]> (workers s)) (world s)
                      (log s ++ [EvAcquire i gpu_ids; EvWrite (launch_message task gpu_ids)]))
          | None =>
              Some (State (gpus s) (<[i := Polling (S sleeps)]> (workers s)) (world s)
                      (log s ++ [EvSleep i]))
          end
      | _ => None
      end
  | Launch i env =>
      (* lines 115-116 *)
      task ← tasks !! i;
      w ← workers s !! i;
      match w with
      | Running gpu_ids =>
          match _launch (getpid h) env task gpu_ids i (world s) with
          | (Ok res, world') =>
              Some (State (gpus s) (<[i := Launched gpu_ids res]> (workers s)) world'
                      (log s ++ [EvProgress]))
          | (Raise e, world') =>
              Some (State (gpus s) (<[i := Crashed e gpu_ids]> (workers s)) world' (log s))
          end
      | _ => None
      end
  | Release i =>
      (* lines 118-121 *)
      w ← workers s !! i;
      match w with
      | Launched gpu_ids res =>
          Some (State (Slots.release (gpus s) gpu_ids) (<[i := Done res]> (workers s))
                  (world s) (log s ++ [EvRelease i gpu_ids]))
      | _ => None
      end
  end.

Fixpoint run (r : LocalRunner) (h : host) (tasks : list Task)
    (schedule : list action) (s : state) : option state :=
  match schedule with
  | [] => Some s
  | a :: schedule' => s' ← submit_step r h tasks a s; run r h tasks schedule' s'
  end.

Definition reachable (r : LocalRunner) (h : host) (tasks : list Task) (s : state) : Prop :=
  ∃ schedule, run r h tasks schedule (initial r h tasks) = Some s.

(** The same steps as a relation, one rule for each way an atomic section
    can go. *)
Inductive transition (r : LocalRunner) (h : host) (tasks : list Task)
    : action -> state -> state -> Prop :=
  | T_enter i task s :
      tasks !! i = Some task ->
      workers s !! i = Some Queued ->
      forallb started (take i (workers s)) = true ->
      in_flight (workers s) < max_num_workers r ->
      Slots.fits_table (gpus s) (num_gpus task) = true ->
      transition r h tasks (Start i) s
        (State (gpus s) (<[i := Polling 0]> (workers s)) (world s) (log s))
  | T_reject i task s :
      tasks !! i = Some task ->
      workers s !! i = Some Queued ->
      forallb started (take i (workers s)) = true ->
      in_flight (workers s) < max_num_workers r ->
      Slots.fits_table (gpus s) (num_gpus task) = false ->
      transition r h tasks (Start i) s
        (State (gpus s) (<[i := Rejected]> (workers s)) (world s) (log s))
  | T_grant i task sleeps gpu_ids gpus' s :
      tasks !! i = Some task ->
      workers s !! i = Some (Polling sleeps) ->
      Slots.try_acquire (gpus s) (num_gpus task) = Some (gpu_ids, gpus') ->
      transition r h tasks (Poll i) s
        (State gpus' (<[i := Running gpu_ids]> (workers s)) (world s)
           (log s ++ [EvAcquire i gpu_ids; EvWrite (launch_message task gpu_ids)]))
  | T_sleep i task sleeps s :
      tasks !! i = Some task ->
      workers s !! i = Some (Polling sleeps) ->
      Slots.try_acquire (gpus s) (num_gpus task) = None ->
      transition r h tasks (Poll i) s
        (State (gpus s) (<[i := Polling (S sleeps)]> (workers s)) (world s)
           (log s ++ [EvSleep i]))
  | T_launched i env task gpu_ids res world' s :
      tasks !! i = Some task ->
      workers s !! i = Some (Running gpu_ids) ->
      _launch (getpid h) env task gpu_ids i (world s) = (Ok res, world') ->
      transition r h tasks (Launch i env) s
        (State (gpus s) (<[i := Launched gpu_ids res]> (workers s)) world'
           (log s ++ [EvProgress]))
  | T_crashed i env task gpu_ids e world' s :
      tasks !! i = Some task ->
      workers s !! i = Some (Running gpu_ids) ->
      _launch (getpid h) env task gpu_ids i (world s) = (Raise e, world') ->
      transition r h tasks (Launch i env) s
        (State (gpus s) (<[i := Crashed e gpu_ids]> (workers s)) world' (log s))
  | T_release i gpu_ids res s :
      workers s !! i = Some (Launched gpu_ids res) ->
      transition r h tasks (Release i) s
        (State (Slots.release (gpus s) gpu_ids) (<[i := Done res]> (workers s))
           (world s) (log s ++ [EvRelease i gpu_ids])).

(** What [submit] gave for one task, once it is over. *)
Definition worker_result (w : worker) : option (result (string * Z)) :=
  match w with
  | Done res => Some (Ok res)
  | Rejected => Some (Raise AssertionError)
  | Crashed e _ => Some (Raise e)
  | _ => None
  end.

(** Lines 123-127.  Leaving the [with] block waits for every worker;
    [launch] then returns the iterator of [executor.map], which gives the
    results in the order of [tasks] and raises at the first task whose
    [submit] raised. *)
Inductive launched : Type :=
  | LaunchRaised (e : exn)
  | Status (results : list (result (string * Z))).

Definition launch (r : LocalRunner) (h : host) (tasks : list Task)
    (schedule : list action) : option launched :=
  if bool_decide (max_num_workers r <= 0) then Some (LaunchRaised ValueError)
  else
    s ← run r h tasks schedule (initial r h tasks);
    rs ← mapM worker_result (workers s);
    Some (Status rs).

(** What the caller gets by going through the returned iterator. *)
Fixpoint consume (rs : list (result (string * Z))) : list (string * Z) * option exn :=
  match rs with
  | [] => ([], None)
  | Ok o :: rs' => let '(os, e) := consume rs' in (o :: os, e)
  | Raise e :: _ => ([], Some e)
  end.

(** The resource ids a worker holds a claim on. *)
Definition held (w : worker) : list nat :=
  match w with
  | Running gpu_ids | Launched gpu_ids _ | Crashed _ gpu_ids => gpu_ids
  | _ => []
  end.

(** The number of jobs holding a claim on resource id [g]. *)
Definition holders (ws : list worker) (g : nat) : Z :=
  Z.of_nat (length (filter (fun w => g ∈ held w) ws)).

(** The capacity of a resource id, fixed when the table is built. *)
Definition capacity (r : LocalRunner) (h : host) (g : nat) : Z :=
  if bool_decide (g ∈ Inventory.all_gpu_ids (cuda_visible_devices h) (device_count h))
  then max_workers_per_gpu r
  else 0.

(** Instrumentation of acquire and release: the grants and the releases
    recorded for task [i], and in total. *)
Definition acquire_of (i : nat) (ev : sched_event) : bool :=
  match ev with EvAcquire j _ => bool_decide (i = j) | _ => false end.

Definition release_of (i : nat) (ev : sched_event) : bool :=
  match ev with EvRelease j _ => bool_decide (i = j) | _ => false end.

Definition sleep_of (i : nat) (ev : sched_event) : bool :=
  match ev with EvSleep j => bool_decide (i = j) | _ => false end.

Definition is_acquire (ev : sched_event) : bool :=
  match ev with EvAcquire _ _ => true | _ => false end.

Definition is_release (ev : sched_event) : bool :=
  match ev with EvRelease _ _ => true | _ => false end.

Definition count (p : sched_event -> bool) (l : list sched_event) : nat :=
  length (filter (fun ev => p ev) l).

(** A worker that was granted its claim, and one that gave it back. *)
Definition acquired (w : worker) : bool :=
  match w with
  | Running _ | Launched _ _ | Crashed _ _ | Done _ => true
  | _ => false
  end.

Definition released (w : worker) : bool :=
  match w with Done _ => true | _ => false end.


(** Every call of [submit] is over. *)
Definition finished (s : state) : bool :=
  forallb (fun w => bool_decide (is_Some (worker_result w))) (workers s).

End Sched.

(** ** Invariants of the runs of the pool *)

Module Inv.
Import Exec Sched.

(** For every resource id, the free capacity and the claims held on it add
    up to its capacity; an id outside the table is held by nobody. *)
Definition slot_inv (r : LocalRunner) (h : host) (s : state) : Prop :=
  ∀ g,
    match gpus s !! g with
    | Some x => 0 <= x ∧ x + holders (workers s) g = capacity r h g
    | None => holders (workers s) g = 0
    end.

(** The recorded grants and releases follow the state of each worker. *)
Definition ledger_inv (s : state) : Prop :=
  (∀ i w, workers s !! i = Some w →
     count (acquire_of i) (log s) = (if acquired w then 1 else 0)%nat ∧
     count (release_of i) (log s) = (if released w then 1 else 0)%nat) ∧
  Z.of_nat (count is_acquire (log s)) =
    Z.of_nat (length (filter (fun w => acquired w) (workers s))) ∧
  Z.of_nat (count is_release (log s)) =
    Z.of_nat (length (filter (fun w => released w) (workers s))).

(** A worker of a task that asks for no slot is never sent to sleep. *)
Definition cpu_never_sleeps (tasks : list Task) (s : state) : Prop :=
  ∀ i task, tasks !! i = Some task → num_gpus task = 0 →
    count (sleep_of i) (log s) = 0%nat ∧
    ∀ sleeps, workers s !! i = Some (Polling sleeps) → sleeps = 0%nat.

(** What one call of [_launch] does before it starts the child. *)
Definition setup_effects (pid : nat) (task : Task) (gpu_ids : list nat)
    (index : nat) : list event :=
  let cmd := launch_command pid task gpu_ids index in
  let out_path := get_log_path task "out" in
  [ Mkdir "tmp/"; Dump (param_file_of pid index);
    LogDebug ("Running command: " +:+ cmd);
    Mkdir (Str.split_head out_path); OpenW out_path;
    Spawn cmd (Some out_path) ].

Definition warning_effects (task : Task) (returncode : Z) : list event :=
  if bool_decide (returncode ≠ 0)
  then [LogWarning (fail_warning (name task) (get_log_path task "out"))]
  else [].

Definition setup_files (pid : nat) (task : Task) (index : nat)
    (fs : list string) : list string :=
  add_file (get_log_path task "out") (add_file (param_file_of pid index) fs).


(** The outside in which every child exits with [code] and nothing raises. *)
Definition env_exit (code : Z) : environment :=
  MkEnv (fun _ => Ok code) (fun _ => false) (fun _ => Ok tt).

(** The schedule that runs the tasks one after the other, from task
    [index] on, the child of each exiting with the code given for it. *)
Fixpoint one_by_one (index : nat) (codes : list Z) : list action :=
  match codes with
  | [] => []
  | code :: codes' =>
      [Start index; Poll index; Launch index (env_exit code); Release index]
      ++ one_by_one (S index) codes'
  end.

Definition done_with (task : Task) (code : Z) : worker := Done (name task, code).

Definition ok_with (task : Task) (code : Z) : result (string * Z) :=
  Ok (name task, code).

(** The table as built can serve the task: the assertion of line 97 passes
    and enough ids are free. *)
Definition servable (gpus0 : list Z) (task : Task) : Prop :=
  Slots.fits_table gpus0 (num_gpus task) = true ∧
  Slots.count_free gpus0 >= num_gpus task.

Definition is_spawn (ev : event) : bool :=
  match ev with Spawn _ _ => true | _ => false end.

End Inv.

(** ** The statements of the specification that the code does not meet *)

Module Stated.
Import Exec Sched Inv.



(** "On every exit path of a worker's handling of one job the ids granted
    are released exactly once, so at batch end the releases equal the
    acquires and every slot counter is back at its initial value." *)
Definition releases_balanced (r : LocalRunner) (h : host) (tasks : list Task) : Prop :=
  ∀ s, reachable r h tasks s → finished s = true →
    count is_release (log s) = count is_acquire (log s) ∧
    gpus s = gpus (initial r h tasks).

(** "The temporary config file is deleted regardless of the child's exit
    status, including when the child-process invocation itself raises; a
    failure of that deletion leaves the job's reported outcome unchanged." *)
Definition cleanup_guaranteed (pid : nat) (env : environment) (task : Task)
    (gpu_ids : list nat) (index : nat) (w : Exec.world) : Prop :=
  let out := _launch pid env task gpu_ids index w in
  (param_file_of pid index ∉ files (out.2)) ∧
  (os_remove_fails env (param_file_of pid index) = true →
   ∀ code, subprocess_run env (launch_command pid task gpu_ids index) = Ok code →
     out.1 = Ok (name task, code)).

(** The template sets the resource-visibility variable. *)
Definition sets_visibility (tmpl : string) : bool :=
  Str.startswith "CUDA_VISIBLE_DEVICES=" tmpl.

(** "The granted ids are bound into the resource-visibility variable if
    and only if the job's resource demand is positive." *)
Definition bound_iff_positive (task : Task) (gpus : list Z) : Prop :=
  ∀ gpu_ids gpus',
    Slots.try_acquire gpus (num_gpus task) = Some (gpu_ids, gpus') →
    (sets_visibility (launch_template gpu_ids) = true ↔ num_gpus task > 0).



End Stated.

(** ** Concrete batches *)

Module Scenario.
Import Exec Sched Inv.

(** A task whose command is the template with the config path put in. *)
Definition job (task_name : string) (demand : Z) : Task :=
  MkTask task_name demand
    (fun cfg_path tmpl => tmpl +:+ " " +:+ cfg_path)
    (fun ext => "outputs/logs/" +:+ task_name +:+ "." +:+ ext).

Definition runner : LocalRunner := MkRunner 2 1.

(** Two devices, one device with the sparse id 1, and none. *)
Definition two_gpus : host := MkHost (Some "0,1") 8 4242.
Definition only_gpu_1 : host := MkHost (Some "1") 8 4242.
Definition no_gpu : host := MkHost None 0 4242.

(** The child cannot be run. *)
Definition env_spawn_fails : environment :=
  MkEnv (fun _ => Raise OSError) (fun _ => false) (fun _ => Ok tt).


(** Scenario A of the specification: three tasks of one slot each on two
    devices; here the first two hold both devices. *)
Definition batch : list Task := [job "a" 1; job "b" 1; job "c" 1].

Definition both_held : state :=
  Eval vm_compute in
    default (initial runner two_gpus batch)
      (run runner two_gpus batch [Start 0; Start 1; Poll 0; Poll 1]
         (initial runner two_gpus batch)).

(** A task of two slots where only the device 1 is visible, after three
    polls. *)
Definition greedy : list Task := [job "big" 2].

Definition still_polling : state :=
  Eval vm_compute in
    default (initial runner only_gpu_1 greedy)
      (run runner only_gpu_1 greedy [Start 0; Poll 0; Poll 0; Poll 0]
         (initial runner only_gpu_1 greedy)).

(** A task whose child cannot be run, once its worker is over. *)
Definition crashed : state :=
  Eval vm_compute in
    default (initial runner two_gpus [job "a" 1])
      (run runner two_gpus [job "a" 1] [Start 0; Poll 0; Launch 0 env_spawn_fails]
         (initial runner two_gpus [job "a" 1])).

(** Scenario C of the specification, run to its end: the child of the
    first task exits with the code 7, the second with 0. *)
Definition pair_of_jobs : list Task := [job "a" 1; job "b" 1].

Definition one_failed : state :=
  Eval vm_compute in
    default (initial runner two_gpus pair_of_jobs)
      (run runner two_gpus pair_of_jobs (one_by_one 0 [7; 0])
         (initial runner two_gpus pair_of_jobs)).

(** A task without slots, polling. *)
Definition cpu_polling : state :=
  Eval vm_compute in
    default (initial runner no_gpu [job "cpu" 0])
      (run runner no_gpu [job "cpu" 0] [Start 0] (initial runner no_gpu [job "cpu" 0])).

(** A task in the manner of the task classes of the repository: its
    command is the template with "python run.py" and the config path in the
    place of the first "{task_cmd}". *)
Fixpoint format_task_cmd (tmpl task_cmd : string) : string :=
  if Str.startswith "{task_cmd}" tmpl
  then task_cmd +:+ String.substring 10 (String.length tmpl - 10) tmpl
  else match tmpl with
       | EmptyString => EmptyString
       | String c tmpl' => String c (format_task_cmd tmpl' task_cmd)
       end.

Definition py_job (task_name : string) (demand : Z) : Task :=
  MkTask task_name demand
    (fun cfg_path tmpl => format_task_cmd tmpl ("python run.py " +:+ cfg_path))
    (fun ext => "outputs/logs/" +:+ task_name +:+ "." +:+ ext).


(** A task run in process followed by one run as a child. *)
Definition mixed : list Task := [py_job "p" 0; job "a" 1].

End Scenario.


(** ** Further notions about the same code *)

Module More.
Import Exec Sched Inv.

(** The characters of a string. *)
Definition chars (s : string) : list ascii := list_ascii_of_string s.

(** Strictly ascending, position by position. *)
Definition ascending (l : list nat) : Prop :=
  ∀ i j x y, (i < j)%nat → l !! i = Some x → l !! j = Some y → (x < y)%nat.

(** The number of distinct visible ids. *)
Definition distinct_ids (all_gpu_ids : list nat) : Z :=
  Z.of_nat (length (remove_dups all_gpu_ids)).

(** Every index of the table is a visible id. *)
Definition dense (r : LocalRunner) (h : host) (tasks : list Task) : Prop :=
  ∀ g, (g < length (gpus (initial r h tasks)))%nat →
    g ∈ Inventory.all_gpu_ids (cuda_visible_devices h) (device_count h).

Definition is_progress (ev : sched_event) : bool :=
  match ev with EvProgress => true | _ => false end.

(** The command of a task in debug mode, line 66, and how line 69-72 runs
    it. *)
Definition debug_command (pid : nat) (task : Task) : string :=
  get_command task (DebugMode.param_file_of pid) "{task_cmd}".

Definition debug_run_event (pid : nat) (task : Task) : event :=
  if Str.startswith "python" (debug_command pid task)
  then RunInProcess (name task)
  else Spawn (debug_command pid task) None.

(** What debug mode does for a task up to and including its command. *)
Definition debug_attempt (pid : nat) (task : Task) : list event :=
  [Mkdir "tmp/"; Dump (DebugMode.param_file_of pid); debug_run_event pid task].

(** What debug mode does for a task when nothing raises. *)
Definition debug_effects (pid : nat) (task : Task) : list event :=
  debug_attempt pid task ++ [Remove (DebugMode.param_file_of pid)].

(** What running the command of a task gives in debug mode, and the
    exception that ends the handling of the task, if any. *)
Definition debug_run_result (pid : nat) (env : environment) (task : Task) : result unit :=
  if Str.startswith "python" (debug_command pid task)
  then task_run env (name task)
  else match subprocess_run env (debug_command pid task) with
       | Ok _ => Ok tt
       | Raise e => Raise e
       end.

Definition debug_failure (pid : nat) (env : environment) (task : Task) : option exn :=
  match debug_run_result pid env task with
  | Raise e => Some e
  | Ok _ => if os_remove_fails env (DebugMode.param_file_of pid) then Some OSError else None
  end.

(** The world after debug mode handled [tasks] without a raise. *)
Definition after_debug (pid : nat) (tasks : list Task) (w : Exec.world) : Exec.world :=
  World
    (if bool_decide (tasks = []) then files w
     else del_file (DebugMode.param_file_of pid) (files w))
    (trace w ++ flat_map (debug_effects pid) tasks).

(** The schedule that runs the tasks one after the other, from task
    [index] on; a task that fails the assertion of line 97 only starts. *)
Fixpoint each_in_turn (gpus0 : list Z) (index : nat) (tasks : list Task)
    (codes : list Z) : list action :=
  match tasks, codes with
  | task :: tasks', code :: codes' =>
      (if Slots.fits_table gpus0 (num_gpus task)
       then [Start index; Poll index; Launch index (env_exit code); Release index]
       else [Start index])
      ++ each_in_turn gpus0 (S index) tasks' codes'
  | _, _ => []
  end.

(** What [submit] gives for a task in that schedule. *)
Definition turn_result (gpus0 : list Z) (task : Task) (code : Z) : result (string * Z) :=
  if Slots.fits_table gpus0 (num_gpus task)
  then Ok (name task, code)
  else Raise AssertionError.

Definition turn_worker (gpus0 : list Z) (task : Task) (code : Z) : worker :=
  if Slots.fits_table gpus0 (num_gpus task)
  then Done (name task, code)
  else Rejected.

(** A worker whose [_launch] returned. *)
Definition returned (w : worker) : bool :=
  match w with Launched _ _ | Done _ => true | _ => false end.

(** The tasks start in the order of submission: before a started worker
    every worker is started. *)
Definition in_order (ws : list worker) : Prop :=
  ∀ i j wj, (i < j)%nat → ws !! j = Some wj → started wj = true →
    ∃ wi, ws !! i = Some wi ∧ started wi = true.

(** Bringing a batch to its end from any state: first the workers whose
    child runs or has exited give their ids back, then the waiting ones
    are served in the order of submission. *)
Definition drain_actions (w : worker) (i : nat) : list action :=
  match w with
  | Running _ => [Launch i (env_exit 0); Release i]
  | Launched _ _ => [Release i]
  | _ => []
  end.

Definition finish_actions (w : worker) (i : nat) : list action :=
  match w with
  | Queued => [Start i; Poll i; Launch i (env_exit 0); Release i]
  | Polling _ => [Poll i; Launch i (env_exit 0); Release i]
  | _ => []
  end.

Fixpoint pass (f : worker -> nat -> list action) (i : nat) (ws : list worker)
    : list action :=
  match ws with
  | [] => []
  | w :: ws' => f w i ++ pass f (S i) ws'
  end.

Definition completion (ws : list worker) : list action :=
  pass drain_actions 0 ws ++ pass finish_actions 0 ws.

(** A worker that holds no id and can still be served, or is done. *)
Definition idle (w : worker) : bool :=
  match w with Queued | Polling _ | Done _ => true | _ => false end.

Definition is_done (w : worker) : bool :=
  match w with Done _ => true | _ => false end.

(** A worker after the first pass. *)
Definition drained (w w' : worker) : Prop :=
  match w with
  | Running _ | Launched _ _ => is_done w' = true
  | _ => w' = w
  end.

(** A worker that is over: it occupies no thread and holds no id. *)
Definition settled (w : worker) : bool :=
  match w with Done _ | Rejected => true | _ => false end.

(** A host with two devices and no visibility variable. *)
Definition plain_host : host := MkHost None 2 4242.

(** The ids a worker was granted and passes, or passed, to [_launch]. *)
Definition granted_ids (w : worker) : option (list nat) :=
  match w with
  | Running gpu_ids | Launched gpu_ids _ | Crashed _ gpu_ids => Some gpu_ids
  | _ => None
  end.

(** What a grant is for the demand of its task. *)
Definition grant_fits (task : Task) (gpu_ids : list nat) : Prop :=
  (num_gpus task = 0 → gpu_ids = []) ∧
  (0 < num_gpus task → Z.of_nat (length gpu_ids) = num_gpus task ∧ NoDup gpu_ids).

(** The ids a worker holds for [_launch] are those of a recorded grant, and
    every recorded grant is one for a task of the batch. *)
Definition grants_recorded (tasks : list Task) (s : state) : Prop :=
  (∀ i w gpu_ids, workers s !! i = Some w → granted_ids w = Some gpu_ids →
     In (EvAcquire i gpu_ids) (log s)) ∧
  (∀ i gpu_ids, In (EvAcquire i gpu_ids) (log s) →
     ∃ task, tasks !! i = Some task ∧ grant_fits task gpu_ids).

(** Every child started so far runs the command of a task of the batch,
    resolved with the ids granted to the worker of that task, and writes to
    the log of that task. *)
Definition children_bound (h : host) (tasks : list Task) (s : state) : Prop :=
  ∀ cmd out, In (Spawn cmd out) (trace (world s)) →
    ∃ i task gpu_ids,
      tasks !! i = Some task ∧
      In (EvAcquire i gpu_ids) (log s) ∧
      cmd = get_command task (param_file_of (getpid h) i) (launch_template gpu_ids) ∧
      out = Some (get_log_path task "out").


(** The strings above are strings of bytes, and [Str.is_digit] knows the
    ten ASCII digits only, while the pattern of line 78 also matches the
    decimal digits outside ASCII.  On a value made of ASCII characters the
    two agree. *)
Definition ascii_only (s : string) : bool :=
  forallb (fun c => (nat_of_ascii c <? 128)%nat) (chars s).

(** What may stand between two ids in the value of the variable: at least
    one ASCII character, none of them a digit or a minus sign. *)
Definition separator (sep : string) : bool :=
  negb (bool_decide (sep = "")) &&
  forallb (fun c => (nat_of_ascii c <? 128)%nat && negb (Str.is_digit c)
                    && negb (Str.is_minus c)) (chars sep).

(** The value that lists [first] and then the ids of [rest], each after its
    separator. *)
Fixpoint listing (first : nat) (rest : list (string * nat)) : string :=
  Str.str first +:+
  match rest with
  | [] => ""
  | (sep, n) :: rest' => sep +:+ listing n rest'
  end.

(** The outcomes delivered for the first tasks of a batch. *)
Definition outcomes_of (tasks : list Task) (codes : list Z) : list (string * Z) :=
  zip_with (fun task code => (name task, code)) tasks codes.

End More.

(** * Properties *)

(** ** Facts about the slot table *)

Module SlotsFacts.
Import Slots.

Lemma length_add_at a idx d : length (add_at a idx d) = length a.
Proof. unfold add_at. apply length_imap. Qed.

Lemma lookup_add_at a idx d g :
  add_at a idx d !! g =
  (fun x => if bool_decide (g ∈ idx) then to_uint (x + d) else x) <$> a !! g.
Proof. unfold add_at. apply list_lookup_imap. Qed.

Lemma add_at_nil a d : add_at a [] d = a.
Proof.
  apply list_eq; intros g. rewrite lookup_add_at.
  destruct (a !! g) as [x|]; [|done].
  cbn [fmap option_fmap option_map]. case_bool_decide as Hg; [|done].
  by apply elem_of_nil in Hg.
Qed.

Lemma to_uint_small x : 0 <= x < uint_modulus → to_uint x = x.
Proof. intros Hx. unfold to_uint. by apply Z.mod_small. Qed.

Lemma elem_of_where_from a k g :
  g ∈ where_from k a ↔ (k ≤ g)%nat ∧ ∃ x, a !! (g - k)%nat = Some x ∧ x ≠ 0.
Proof.
  revert k. induction a as [|y a IH]; intros k; simpl.
  - split; [intros H; by apply elem_of_nil in H|]. intros (_ & x & Hx & _). done.
  - assert (Htail : g ∈ where_from (S k) a ↔
        (k < g)%nat ∧ ∃ x, (y :: a) !! (g - k)%nat = Some x ∧ x ≠ 0).
    { rewrite IH. split.
      - intros (Hle & x & Hx & Hne). split; [lia|]. exists x. split; [|done].
        replace (g - k)%nat with (S (g - S k)) by lia. done.
      - intros (Hlt & x & Hx & Hne). split; [lia|]. exists x. split; [|done].
        replace (g - k)%nat with (S (g - S k)) in Hx by lia. done. }
    case_bool_decide as Hy.
    + rewrite elem_of_cons, Htail. split.
      * intros [->|(Hlt & Hx)].
        -- split; [lia|]. exists y. replace (k - k)%nat with 0%nat by lia. done.
        -- split; [lia|done].
      * intros (Hle & x & Hx & Hne).
        destruct (decide (g = k)) as [->|Hgk]; [by left|right].
        split; [lia|]. by exists x.
    + rewrite Htail. split.
      * intros (Hlt & Hx). split; [lia|done].
      * intros (Hle & x & Hx & Hne).
        destruct (decide (g = k)) as [->|Hgk].
        -- replace (k - k)%nat with 0%nat in Hx by lia. simpl in Hx.
           injection Hx as ->. by destruct Hy.
        -- split; [lia|]. by exists x.
Qed.

Lemma elem_of_np_where a g : g ∈ np_where a ↔ ∃ x, a !! g = Some x ∧ x ≠ 0.
Proof.
  unfold np_where. rewrite elem_of_where_from.
  replace (g - 0)%nat with g by lia. split; [by intros [_ H]|]. intros H. split; [lia|done].
Qed.

Lemma NoDup_where_from a k : NoDup (where_from k a).
Proof.
  revert k. induction a as [|y a IH]; intros k; simpl; [constructor|].
  case_bool_decide; [|done]. constructor; [|done].
  rewrite elem_of_where_from. lia.
Qed.

Lemma count_free_le_where a :
  (length (filter (fun x : Z => (0 < x)%Z) a) ≤ length (np_where a))%nat.
Proof.
  unfold np_where. generalize 0%nat.
  induction a as [|y a IH]; intros k; simpl; [done|].
  rewrite filter_cons. specialize (IH (S k)).
  destruct (decide (0 < y)); case_bool_decide; simpl; lia.
Qed.

Lemma elem_of_slice_to {A} (l : list A) n x : x ∈ slice_to l n → x ∈ l.
Proof.
  unfold slice_to. case_bool_decide; intros Hx%elem_of_take;
    destruct Hx as (i & Hi & _); by eapply list_elem_of_lookup_2.
Qed.

Lemma NoDup_slice_to {A} (l : list A) n : NoDup l → NoDup (slice_to l n).
Proof.
  intros Hl. unfold slice_to.
  case_bool_decide; (eapply sublist_NoDup; [done|apply sublist_take]).
Qed.

Lemma slice_to_0 {A} (l : list A) : slice_to l 0 = [].
Proof. unfold slice_to. rewrite bool_decide_eq_false_2 by lia. done. Qed.

(** What a grant is made of. *)
Lemma try_acquire_Some gpus n gpu_ids gpus' :
  try_acquire gpus n = Some (gpu_ids, gpus') →
  count_free gpus >= n ∧
  gpu_ids = slice_to (np_where gpus) n ∧
  gpus' = add_at gpus gpu_ids (-1).
Proof.
  unfold try_acquire. case_bool_decide; [|done]. intros [= <- <-]. done.
Qed.

Lemma try_acquire_ids_free gpus n gpu_ids gpus' g :
  try_acquire gpus n = Some (gpu_ids, gpus') →
  g ∈ gpu_ids → ∃ x, gpus !! g = Some x ∧ x ≠ 0.
Proof.
  intros (_ & -> & _)%try_acquire_Some Hg%elem_of_slice_to.
  by apply elem_of_np_where.
Qed.

Lemma try_acquire_NoDup gpus n gpu_ids gpus' :
  try_acquire gpus n = Some (gpu_ids, gpus') → NoDup gpu_ids.
Proof.
  intros (_ & -> & _)%try_acquire_Some. apply NoDup_slice_to, NoDup_where_from.
Qed.

Lemma try_acquire_length gpus n gpu_ids gpus' :
  0 <= n →
  try_acquire gpus n = Some (gpu_ids, gpus') → Z.of_nat (length gpu_ids) = n.
Proof.
  intros Hn (Hfree & -> & _)%try_acquire_Some.
  unfold slice_to. rewrite bool_decide_eq_false_2 by lia.
  rewrite length_take. unfold count_free in Hfree.
  pose proof (count_free_le_where gpus). lia.
Qed.

(** The table as built at construction. *)
Lemma lookup_init_gpus ids m g x :
  init_gpus ids m !! g = Some x →
  x = if bool_decide (g ∈ ids) then to_uint m else 0.
Proof.
  unfold init_gpus. case_bool_decide; [|done].
  unfold assign_at. rewrite list_lookup_imap.
  destruct (np_zeros _ !! g) as [z|] eqn:Hz; simpl; [|done].
  apply lookup_replicate in Hz as [-> _]. by intros [= <-].
Qed.

Lemma init_gpus_covers ids m g : g ∈ ids → is_Some (init_gpus ids m !! g).
Proof.
  intros Hg. unfold init_gpus.
  rewrite bool_decide_eq_true_2 by (destruct ids; [by apply elem_of_nil in Hg|simpl; lia]).
  apply lookup_lt_is_Some. unfold assign_at, np_zeros.
  rewrite length_imap, length_replicate.
  pose proof (max_list_elem_of_le _ _ Hg). lia.
Qed.

End SlotsFacts.

(** ** Facts about the scheduler *)

Module SchedFacts.
Import Exec Sched Inv SlotsFacts.

Lemma step_transition r h tasks a s s' :
  submit_step r h tasks a s = Some s' → transition r h tasks a s s'.
Proof.
  destruct a as [i|i|i env|i]; simpl.
  - destruct (tasks !! i) as [task|] eqn:Ht; [|done]. simpl.
    destruct (workers s !! i) as [[]|] eqn:Hw; try done. simpl.
    destruct (forallb _ _) eqn:Hq; [|done].
    case_bool_decide; [|done]. simpl.
    destruct (Slots.fits_table _ _) eqn:Ha; intros [= <-].
    + by eapply T_enter.
    + by eapply T_reject.
  - destruct (tasks !! i) as [task|] eqn:Ht; [|done]. simpl.
    destruct (workers s !! i) as [[]|] eqn:Hw; try done. simpl.
    destruct (Slots.try_acquire _ _) as [[ids g']|] eqn:Hp; intros [= <-].
    + by eapply T_grant.
    + by eapply T_sleep.
  - destruct (tasks !! i) as [task|] eqn:Ht; [|done]. simpl.
    destruct (workers s !! i) as [[]|] eqn:Hw; try done. simpl.
    destruct (_launch _ _ _ _ _ _) as [[res|e] w'] eqn:Hl; intros [= <-].
    + by eapply T_launched.
    + by eapply T_crashed.
  - destruct (workers s !! i) as [[]|] eqn:Hw; try done. simpl.
    intros [= <-]. by eapply T_release.
Qed.

Lemma transition_step r h tasks a s s' :
  transition r h tasks a s s' → submit_step r h tasks a s = Some s'.
Proof.
  destruct 1; simpl;
    repeat match goal with
    | H : _ !! _ = Some _ |- _ => rewrite H; clear H; simpl
    | H : forallb _ _ = true |- _ => rewrite H; clear H; simpl
    | H : Slots.fits_table _ _ = _ |- _ => rewrite H; clear H; simpl
    | H : Slots.try_acquire _ _ = _ |- _ => rewrite H; clear H; simpl
    | H : _launch _ _ _ _ _ _ = _ |- _ => rewrite H; clear H; simpl
    | H : in_flight _ < _ |- _ => rewrite (bool_decide_eq_true_2 _ H); clear H; simpl
    end; done.
Qed.

(** Induction over the runs of the pool. *)
Lemma run_invariant r h tasks (P : state → Prop) :
  (∀ a s s', P s → transition r h tasks a s s' → P s') →
  ∀ schedule s s', P s → run r h tasks schedule s = Some s' → P s'.
Proof.
  intros Hstep schedule. induction schedule as [|a schedule IH]; intros s s' Hs; simpl.
  - by intros [= <-].
  - destruct (submit_step r h tasks a s) as [s1|] eqn:H1; [|done]. simpl.
    apply IH. eapply Hstep; [done|]. by apply step_transition.
Qed.

Lemma reachable_invariant r h tasks (P : state → Prop) :
  P (initial r h tasks) →
  (∀ a s s', P s → transition r h tasks a s s' → P s') →
  ∀ s, reachable r h tasks s → P s.
Proof. intros H0 Hstep s [schedule Hrun]. by eapply run_invariant. Qed.

Lemma run_app r h tasks sch1 sch2 s :
  run r h tasks (sch1 ++ sch2) s = s' ← run r h tasks sch1 s; run r h tasks sch2 s'.
Proof.
  revert s. induction sch1 as [|a sch1 IH]; intros s; simpl; [done|].
  destruct (submit_step r h tasks a s); simpl; [apply IH|done].
Qed.

(** Counting the workers that satisfy a property, when one of them changes. *)
Lemma tally_insert {A} (P : A → Prop) `{!∀ x, Decision (P x)} (l : list A) i x y :
  l !! i = Some x →
  Z.of_nat (length (filter P (<[i:=y]> l))) =
  Z.of_nat (length (filter P l))
  - (if decide (P x) then 1 else 0) + (if decide (P y) then 1 else 0).
Proof.
  revert i. induction l as [|z l IH]; intros i Hi; [done|].
  destruct i as [|i]; simpl in *.
  - injection Hi as ->. rewrite !filter_cons.
    destruct (decide (P x)), (decide (P y)); simpl; lia.
  - rewrite !filter_cons. specialize (IH i Hi).
    destruct (decide (P z)); simpl; lia.
Qed.

Lemma holders_insert ws i w w' g :
  ws !! i = Some w →
  holders (<[i:=w']> ws) g =
  holders ws g - (if decide (g ∈ held w) then 1 else 0)
               + (if decide (g ∈ held w') then 1 else 0).
Proof.
  intros Hi. unfold holders.
  by apply (@tally_insert worker (fun w0 => g ∈ held w0) (fun w0 => decide (g ∈ held w0))).
Qed.

Lemma holders_insert_same ws i w w' g :
  ws !! i = Some w → held w' = held w →
  holders (<[i:=w']> ws) g = holders ws g.
Proof.
  intros Hi Hh. rewrite (holders_insert _ _ _ _ _ Hi), Hh.
  destruct (decide _); lia.
Qed.

Lemma holders_nonneg ws g : 0 <= holders ws g.
Proof. unfold holders. lia. Qed.

Lemma holders_replicate_Queued n g : holders (replicate n Queued) g = 0.
Proof.
  unfold holders. induction n as [|n IH]; [done|]. simpl.
  rewrite filter_cons. destruct (decide _) as [Hg|]; [|done].
  by apply elem_of_nil in Hg.
Qed.

(** *** The slot invariant: free capacity plus claims is the capacity *)

Lemma capacity_bounds r h g :
  0 <= max_workers_per_gpu r < Slots.uint_modulus →
  0 <= capacity r h g < Slots.uint_modulus.
Proof. intros Hm. unfold capacity. case_bool_decide; [done|]. unfold Slots.uint_modulus. lia. Qed.

Lemma slot_inv_initial r h tasks :
  0 <= max_workers_per_gpu r < Slots.uint_modulus →
  slot_inv r h (initial r h tasks).
Proof.
  intros Hm g. unfold initial. cbn [gpus workers].
  rewrite holders_replicate_Queued.
  destruct (Slots.init_gpus _ _ !! g) as [x|] eqn:Hx; [|done].
  apply lookup_init_gpus in Hx. unfold capacity.
  case_bool_decide; subst x; [rewrite to_uint_small by done|]; lia.
Qed.

Lemma slot_inv_step r h tasks a s s' :
  0 <= max_workers_per_gpu r < Slots.uint_modulus →
  slot_inv r h s → transition r h tasks a s s' → slot_inv r h s'.
Proof.
  intros Hm Hinv Htr g. specialize (Hinv g).
  pose proof (capacity_bounds r h g Hm) as Hcap.
  destruct Htr; cbn [gpus workers] in *.
  - by rewrite (holders_insert_same _ _ Queued).
  - by rewrite (holders_insert_same _ _ Queued).
  - (* a grant: the ids taken had free capacity *)
    match goal with H : Slots.try_acquire _ _ = _ |- _ =>
      pose proof (try_acquire_ids_free _ _ _ _ g H) as Hfree;
      apply try_acquire_Some in H as (_ & _ & ->) end.
    rewrite lookup_add_at.
    erewrite holders_insert by done. cbn [held].
    rewrite decide_False by apply not_elem_of_nil.
    destruct (gpus s !! g) as [x|] eqn:Hx; cbn [fmap option_fmap option_map].
    + destruct Hinv as [Hx0 Hsum].
      pose proof (holders_nonneg (workers s) g).
      destruct (decide (g ∈ gpu_ids)) as [Hg|Hg].
      * rewrite bool_decide_eq_true_2 by done.
        destruct (Hfree Hg) as (x' & Hx' & Hne). simplify_eq.
        rewrite to_uint_small by lia. lia.
      * rewrite bool_decide_eq_false_2 by done. lia.
    + destruct (decide (g ∈ gpu_ids)) as [Hg|Hg]; [|lia].
      destruct (Hfree Hg) as (x' & Hx' & _). simplify_eq.
  - by rewrite (holders_insert_same _ _ (Polling sleeps)).
  - by rewrite (holders_insert_same _ _ (Running gpu_ids)).
  - by rewrite (holders_insert_same _ _ (Running gpu_ids)).
  - (* a release: the claim given back was counted *)
    unfold Slots.release. rewrite lookup_add_at.
    erewrite holders_insert by done. cbn [held].
    rewrite (decide_False (P := g ∈ [])) by apply not_elem_of_nil.
    pose proof (holders_nonneg (<[i:=Done res]> (workers s)) g) as Hnn.
    erewrite holders_insert in Hnn by done. cbn [held] in Hnn.
    rewrite (decide_False (P := g ∈ [])) in Hnn by apply not_elem_of_nil.
    destruct (gpus s !! g) as [x|] eqn:Hx; cbn [fmap option_fmap option_map].
    + destruct Hinv as [Hx0 Hsum].
      destruct (decide (g ∈ gpu_ids)) as [Hg|Hg].
      * rewrite bool_decide_eq_true_2 by done.
        rewrite to_uint_small by lia. lia.
      * rewrite bool_decide_eq_false_2 by done. lia.
    + destruct (decide (g ∈ gpu_ids)); lia.
Qed.

Lemma slot_inv_reachable r h tasks s :
  0 <= max_workers_per_gpu r < Slots.uint_modulus →
  reachable r h tasks s → slot_inv r h s.
Proof.
  intros Hm. apply reachable_invariant.
  - by apply slot_inv_initial.
  - intros a s1 s2. by apply slot_inv_step.
Qed.

End SchedFacts.

(** ** Facts about the execution of one task *)

Module ExecFacts.
Import Exec Inv.

Lemma elem_of_add_file p q fs : p ∈ add_file q fs ↔ p = q ∨ p ∈ fs.
Proof.
  unfold add_file. case_bool_decide as Hq.
  - split; [by right|]. intros [->|]; done.
  - apply elem_of_cons.
Qed.

Lemma not_elem_of_del_file p fs : p ∉ del_file p fs.
Proof. unfold del_file. rewrite list_elem_of_filter. by intros [? _]. Qed.

Lemma elem_of_setup_files pid task index fs :
  param_file_of pid index ∈ setup_files pid task index fs.
Proof. unfold setup_files. rewrite !elem_of_add_file. auto. Qed.

(** [_launch], case by case on what the outside does. *)
Lemma _launch_eq pid env task gpu_ids index w :
  _launch pid env task gpu_ids index w =
  let p := param_file_of pid index in
  let fs := setup_files pid task index (files w) in
  let tr := (trace w ++ setup_effects pid task gpu_ids index)%list in
  match subprocess_run env (launch_command pid task gpu_ids index) with
  | Raise e => (Raise e, World fs tr)
  | Ok code =>
      if os_remove_fails env p
      then (Raise OSError, World fs (tr ++ warning_effects task code))
      else (Ok (name task, code),
            World (del_file p fs) (tr ++ warning_effects task code ++ [Remove p]))
  end.
Proof.
  destruct w as [fs0 tr0].
  unfold _launch, run_subprocess, os_remove, logger_debug, logger_warning,
    mkdir_or_exist, dump, open_w, emit, bind, ret, raise,
    setup_effects, warning_effects, setup_files.
  cbn [files trace].
  rewrite <- !app_assoc. cbn [app].
  destruct (subprocess_run env _) as [code|e]; [|done].
  case_bool_decide; cbn [files trace];
    destruct (os_remove_fails env _); cbn [files trace];
    rewrite <- ?app_assoc; cbn [app]; rewrite ?app_nil_r; done.
Qed.


Lemma _launch_env_exit pid code task gpu_ids index w :
  ∃ w', _launch pid (env_exit code) task gpu_ids index w = (Ok (name task, code), w').
Proof. rewrite _launch_eq. cbn. eauto. Qed.

Lemma startswith_refl p s : Str.startswith p (p +:+ s) = true.
Proof.
  induction p as [|a p IH]; simpl; [done|].
  rewrite bool_decide_eq_true_2 by done. done.
Qed.





End ExecFacts.

(** ** The ledger of grants and releases *)

Module LedgerFacts.
Import Exec Sched Inv SlotsFacts SchedFacts.

Lemma count_nil p : count p [] = 0%nat.
Proof. done. Qed.

Lemma count_cons p ev l :
  count p (ev :: l) = ((if p ev then 1 else 0) + count p l)%nat.
Proof. unfold count. rewrite filter_cons. destruct (p ev); simpl; done. Qed.

Lemma count_app p l1 l2 : count p (l1 ++ l2) = (count p l1 + count p l2)%nat.
Proof. unfold count. by rewrite filter_app, length_app. Qed.

Lemma acquired_tally ws i w w' :
  ws !! i = Some w →
  Z.of_nat (length (filter (fun w => acquired w) (<[i:=w']> ws))) =
  Z.of_nat (length (filter (fun w => acquired w) ws))
  - (if acquired w then 1 else 0) + (if acquired w' then 1 else 0).
Proof.
  intros Hi.
  etrans; [exact (tally_insert (fun w0 : worker => acquired w0) ws i w w' Hi)|].
  cbv beta. destruct (acquired w), (acquired w'); repeat case_decide; simpl in *; done || lia.
Qed.

Lemma released_tally ws i w w' :
  ws !! i = Some w →
  Z.of_nat (length (filter (fun w => released w) (<[i:=w']> ws))) =
  Z.of_nat (length (filter (fun w => released w) ws))
  - (if released w then 1 else 0) + (if released w' then 1 else 0).
Proof.
  intros Hi.
  etrans; [exact (tally_insert (fun w0 : worker => released w0) ws i w w' Hi)|].
  cbv beta. destruct (released w), (released w'); repeat case_decide; simpl in *; done || lia.
Qed.

Lemma ledger_inv_initial r h tasks : ledger_inv (initial r h tasks).
Proof.
  unfold ledger_inv, initial. cbn [workers log]. split; [|split].
  - intros i w [-> _]%lookup_replicate. done.
  - induction (length tasks) as [|n IH]; [done|]. simpl. by rewrite filter_cons.
  - induction (length tasks) as [|n IH]; [done|]. simpl. by rewrite filter_cons.
Qed.

(** The entries of the other workers do not move when worker [i] steps. *)
Ltac other_worker Hj Hne :=
  rewrite list_lookup_insert_ne in Hj by done;
  rewrite ?count_app, ?count_cons, ?count_nil; cbn [acquire_of release_of];
  rewrite ?bool_decide_eq_false_2 by (intros ->; by apply Hne);
  rewrite ?Nat.add_0_r.

Ltac this_worker Hj Hi :=
  rewrite list_lookup_insert_eq in Hj by (by eapply lookup_lt_Some);
  injection Hj as <-;
  rewrite ?count_app, ?count_cons, ?count_nil; cbn [acquire_of release_of];
  rewrite ?bool_decide_eq_true_2 by done;
  cbn [acquired released] in *.

Lemma ledger_inv_step r h tasks a s s' :
  ledger_inv s → transition r h tasks a s s' → ledger_inv s'.
Proof.
  intros (Hper & Hacq & Hrel) Htr.
  destruct Htr as [i task s Ht Hi|i task s Ht Hi|i task sl ids g' s Ht Hi
                  |i task sl s Ht Hi|i env task ids res w' s Ht Hi
                  |i env task ids e w' s Ht Hi|i ids res s Hi];
    unfold ledger_inv; cbn [workers log gpus];
    (split; [intros j w Hj; destruct (decide (j = i)) as [->|Hne];
             [pose proof (Hper _ _ Hi) as [Ha Hr]; this_worker Hj Hi; lia
             |other_worker Hj Hne; by apply Hper]
            |]);
    rewrite (acquired_tally _ _ _ _ Hi), (released_tally _ _ _ _ Hi);
    rewrite ?count_app, ?count_cons, ?count_nil;
    cbn [acquired released is_acquire is_release]; lia.
Qed.

Lemma ledger_inv_reachable r h tasks s : reachable r h tasks s → ledger_inv s.
Proof.
  apply reachable_invariant; [apply ledger_inv_initial|].
  intros a s1 s2. apply ledger_inv_step.
Qed.

(** A grant for zero slots always succeeds and takes nothing. *)
Lemma try_acquire_0 gpus : Slots.try_acquire gpus 0 = Some ([], gpus).
Proof.
  unfold Slots.try_acquire, Slots.count_free.
  rewrite bool_decide_eq_true_2 by lia.
  by rewrite slice_to_0, add_at_nil.
Qed.

Lemma cpu_never_sleeps_reachable r h tasks s :
  reachable r h tasks s → cpu_never_sleeps tasks s.
Proof.
  apply reachable_invariant.
  - intros i task _ _. split; [done|]. unfold initial. cbn [workers].
    by intros sleeps [? _]%lookup_replicate.
  - intros a s1 s2 Hinv Htr i task Hi H0. specialize (Hinv i task Hi H0) as [Hc Hp].
    destruct Htr as [j ? ? ? Hj|j ? ? ? Hj|j ? ? ? ? ? ? Hj|j taskj ? ? Htj Hj Hbusy
                    |j ? ? ? ? ? ? ? Hj|j ? ? ? ? ? ? ? Hj|j ? ? ? Hj];
      cbn [workers log];
      rewrite ?count_app, ?count_cons, ?count_nil; cbn [sleep_of];
      (destruct (decide (i = j)) as [->|Hne];
       [rewrite list_lookup_insert_eq by (by eapply lookup_lt_Some)
       |rewrite list_lookup_insert_ne by done;
        rewrite ?bool_decide_eq_false_2 by done]);
      try (split; [lia|]; try done; by intros sleeps [= <-]).
    (* the worker of task [i] is sent to sleep: impossible *)
    simplify_eq. rewrite H0, try_acquire_0 in Hbusy. done.
Qed.

End LedgerFacts.

(** ** Facts about whole runs *)

Module RunFacts.
Import Exec Sched Inv SlotsFacts SchedFacts ExecFacts LedgerFacts.

Lemma length_workers_step r h tasks a s s' :
  transition r h tasks a s s' → length (workers s') = length (workers s).
Proof. destruct 1; cbn [workers]; apply length_insert. Qed.

Lemma length_workers_reachable r h tasks s :
  reachable r h tasks s → length (workers s) = length tasks.
Proof.
  revert s.
  apply (reachable_invariant r h tasks (fun s => length (workers s) = length tasks)).
  - unfold initial. cbn [workers]. apply length_replicate.
  - intros a s1 s2 H12 Htr. by rewrite (length_workers_step _ _ _ _ _ _ Htr).
Qed.









End RunFacts.

(** ** A run that completes: the tasks one after the other *)

Module Sequential.
Import Exec Sched Inv SlotsFacts SchedFacts ExecFacts.

Lemma to_uint_range x : 0 <= Slots.to_uint x < Slots.uint_modulus.
Proof. unfold Slots.to_uint. apply Z.mod_pos_bound. by unfold Slots.uint_modulus. Qed.

Lemma init_gpus_range ids m g x :
  Slots.init_gpus ids m !! g = Some x → 0 <= x < Slots.uint_modulus.
Proof.
  intros ->%lookup_init_gpus. case_bool_decide; [apply to_uint_range|].
  unfold Slots.uint_modulus. lia.
Qed.

(** Giving back what was just granted restores the table. *)
Lemma release_try_acquire gpus n gpu_ids gpus' :
  (∀ g x, gpus !! g = Some x → 0 <= x < Slots.uint_modulus) →
  Slots.try_acquire gpus n = Some (gpu_ids, gpus') →
  Slots.release gpus' gpu_ids = gpus.
Proof.
  intros Hrange Hacq.
  assert (Hfree := fun g => try_acquire_ids_free _ _ _ _ g Hacq).
  apply try_acquire_Some in Hacq as (_ & _ & ->).
  apply list_eq; intros g. unfold Slots.release. rewrite !lookup_add_at.
  destruct (gpus !! g) as [x|] eqn:Hx; cbn [fmap option_fmap option_map]; [|done].
  case_bool_decide as Hg; [|done].
  destruct (Hfree g Hg) as (x' & Hx' & Hne).
  assert (x' = x) as -> by congruence.
  pose proof (Hrange _ _ Hx).
  rewrite (to_uint_small (x + -1)) by lia.
  rewrite to_uint_small by lia. f_equal. lia.
Qed.

Lemma run_cons_transition r h tasks a schedule s s1 :
  transition r h tasks a s s1 →
  run r h tasks (a :: schedule) s = run r h tasks schedule s1.
Proof. intros Htr. simpl. by rewrite (transition_step _ _ _ _ _ _ Htr). Qed.

Lemma insert_middle {A} (pre : list A) x y tl k :
  k = length pre → <[k:=y]> (pre ++ x :: tl) = pre ++ y :: tl.
Proof.
  intros ->. rewrite insert_app_r_alt by lia.
  by replace (length pre - length pre)%nat with 0%nat by lia.
Qed.

Lemma forallb_started_released pre :
  Forall (fun w => released w = true) pre → forallb started pre = true.
Proof.
  induction 1 as [|w pre Hw _ IH]; [done|]. simpl. rewrite IH.
  by destruct w.
Qed.

Lemma in_flight_idle pre n :
  Forall (fun w => released w = true) pre →
  in_flight (pre ++ replicate n Queued) = 0.
Proof.
  intros Hpre. unfold in_flight. rewrite filter_app, length_app.
  assert (filter (fun w => busy w) pre = []) as ->.
  { induction Hpre as [|w pre Hw _ IH]; [done|].
    rewrite filter_cons, IH. by destruct w. }
  assert (filter (fun w => busy w) (replicate n Queued) = []) as ->; [|done].
  induction n as [|n IH]; [done|]. simpl. by rewrite filter_cons, IH.
Qed.

Lemma one_by_one_from r h tasks gpus0 :
  0 < max_num_workers r →
  (∀ g x, gpus0 !! g = Some x → 0 <= x < Slots.uint_modulus) →
  ∀ rest codes before pre world0 log0,
    tasks = (before ++ rest)%list →
    length pre = length before →
    length codes = length rest →
    Forall (fun w => released w = true) pre →
    Forall (fun task => Slots.fits_table gpus0 (num_gpus task) = true ∧
                        Slots.count_free gpus0 >= num_gpus task) rest →
    ∃ world1 log1,
      run r h tasks (one_by_one (length pre) codes)
        (State gpus0 (pre ++ replicate (length rest) Queued) world0 log0)
      = Some (State gpus0 (pre ++ zip_with done_with rest codes) world1 log1).
Proof.
  intros Hmax Hrange rest.
  induction rest as [|task rest IH];
    intros codes before pre world0 log0 Htasks Hlen Hcodes Hpre Hserve.
  - destruct codes; [|done]. simpl. eauto.
  - destruct codes as [|code codes]; [done|].
    apply Forall_cons in Hserve as [[Hadm Hfree] Hserve].
    assert (tasks !! length pre = Some task) as Htask.
    { subst tasks. by apply list_lookup_middle. }
    destruct (Slots.try_acquire gpus0 (num_gpus task)) as [[gpu_ids gpus1]|] eqn:Hacq;
      [|unfold Slots.try_acquire in Hacq; by rewrite bool_decide_eq_true_2 in Hacq].
    destruct (_launch_env_exit (getpid h) code task gpu_ids (length pre) world0)
      as [world1 Hlaunch].
    cbn [one_by_one app length replicate].
    (* the worker starts *)
    erewrite run_cons_transition; cycle 1.
    { eapply T_enter; cbn [workers gpus]; [done| | | |done].
      - by apply list_lookup_middle.
      - rewrite take_app_length. by apply forallb_started_released.
      - change (Queued :: replicate (length rest) Queued)
          with (replicate (S (length rest)) Queued).
        by rewrite in_flight_idle. }
    cbn [workers gpus world log]. rewrite insert_middle by done.
    (* it is granted its slots at the first poll *)
    erewrite run_cons_transition; cycle 1.
    { eapply T_grant; cbn [workers gpus]; [done| |done]. by apply list_lookup_middle. }
    cbn [workers gpus world log]. rewrite insert_middle by done.
    (* the child exits *)
    erewrite run_cons_transition; cycle 1.
    { eapply T_launched; cbn [workers gpus world]; [done| |done].
      by apply list_lookup_middle. }
    cbn [workers gpus world log]. rewrite insert_middle by done.
    (* the slots are given back *)
    erewrite run_cons_transition; cycle 1.
    { eapply T_release; cbn [workers]. by apply list_lookup_middle. }
    cbn [workers gpus world log]. rewrite insert_middle by done.
    rewrite (release_try_acquire _ _ _ _ Hrange Hacq).
    rewrite (cons_middle (Done _)), app_assoc.
    replace (S (length pre)) with (length (pre ++ [Done (name task, code)]))
      by (rewrite length_app; simpl; lia).
    edestruct (IH codes (before ++ [task])%list (pre ++ [Done (name task, code)])%list)
      as (world2 & log2 & Hrun).
    + by rewrite <- app_assoc.
    + rewrite !length_app. simpl. lia.
    + simpl in Hcodes. lia.
    + apply Forall_app. split; [done|]. by constructor.
    + done.
    + exists world2, log2. rewrite Hrun. f_equal. f_equal.
      rewrite <- app_assoc. done.
Qed.

(** With at least one thread, and every task asking for no more ids than
    are free in the table as built, the pool can finish the batch, whatever
    the exit codes of the children. *)
Lemma one_by_one_completes r h tasks codes :
  0 < max_num_workers r →
  length codes = length tasks →
  Forall (fun task =>
            Slots.fits_table (gpus (initial r h tasks)) (num_gpus task) = true ∧
            Slots.count_free (gpus (initial r h tasks)) >= num_gpus task) tasks →
  ∃ s, run r h tasks (one_by_one 0 codes) (initial r h tasks) = Some s ∧
       workers s = zip_with done_with tasks codes ∧
       gpus s = gpus (initial r h tasks).
Proof.
  intros Hmax Hlen Hserve.
  destruct (one_by_one_from r h tasks (gpus (initial r h tasks)) Hmax
              ltac:(intros g x; apply init_gpus_range)
              tasks codes [] [] empty_world [] eq_refl eq_refl Hlen
              ltac:(constructor) Hserve) as (w1 & l1 & Hrun).
  eexists. split; [exact Hrun|]. done.
Qed.

Lemma launch_one_by_one r h tasks codes :
  0 < max_num_workers r →
  length codes = length tasks →
  Forall (fun task =>
            Slots.fits_table (gpus (initial r h tasks)) (num_gpus task) = true ∧
            Slots.count_free (gpus (initial r h tasks)) >= num_gpus task) tasks →
  launch r h tasks (one_by_one 0 codes) =
  Some (Status (zip_with (fun task code => Ok (name task, code)) tasks codes)).
Proof.
  intros Hmax Hlen Hserve.
  destruct (one_by_one_completes r h tasks codes Hmax Hlen Hserve) as (s & Hrun & Hws & _).
  unfold launch. rewrite bool_decide_eq_false_2 by lia.
  rewrite Hrun. simpl. rewrite Hws.
  assert (mapM worker_result (zip_with done_with tasks codes) =
          Some (zip_with (fun task code => Ok (name task, code)) tasks codes)) as ->; [|done].
  clear. revert codes. induction tasks as [|t tasks IH]; intros [|c codes]; try done.
  simpl. by rewrite IH.
Qed.

End Sequential.

(** ** Facts about debug mode *)

Module DebugFacts.
Import Exec DebugMode.







End DebugFacts.

(** ** Facts about the inventory *)

Module InventoryFacts.
Import Inventory.

(** On a value without minus signs the scan of the code gives the digit
    runs of the specification. *)
Lemma findall_from_no_minus s prev cur b :
  no_minus s = true → not_minus prev → not_minus b →
  map Str.int (findall_from prev cur s) =
  kept (digit_runs_from prev (pair b <$> cur) s).
Proof.
  revert prev cur b. induction s as [|c s IH]; intros prev cur b; simpl.
  - intros _ _ Hb. destruct cur as [m|]; simpl; [|done].
    unfold kept. rewrite filter_cons.
    rewrite decide_True; [done|]. unfold after_minus. by destruct b.
  - intros [Hc Hs]%andb_true_iff Hprev Hb. apply negb_true_iff in Hc.
    destruct cur as [m|]; simpl.
    + destruct (Str.is_digit c).
      * by apply (IH (Some c) (Some (m ++ [c])) b).
      * simpl. unfold kept. rewrite filter_cons.
        rewrite decide_True by (unfold after_minus; by destruct b).
        simpl. f_equal. by apply (IH (Some c) None b).
    + assert (negb (match prev with Some p => Str.is_minus p | None => false end) = true)
        as -> by (destruct prev; simpl in *; [by rewrite Hprev|done]).
      rewrite andb_true_r.
      destruct (Str.is_digit c).
      * by apply (IH (Some c) (Some [c]) prev).
      * by apply (IH (Some c) None b).
Qed.

Lemma all_gpu_ids_no_minus v device_count :
  no_minus v = true → all_gpu_ids (Some v) device_count = spec_ids v.
Proof.
  intros Hv. unfold all_gpu_ids, findall, spec_ids.
  by apply (findall_from_no_minus v None None None).
Qed.

End InventoryFacts.

(** * The claims *)

Module Claims.
Import Exec Sched Inv Stated Scenario.
Import SlotsFacts SchedFacts ExecFacts LedgerFacts RunFacts Sequential DebugFacts
  InventoryFacts.

Lemma length_gpus_reachable r h tasks s :
  reachable r h tasks s → length (gpus s) = length (gpus (initial r h tasks)).
Proof.
  revert s.
  apply (reachable_invariant r h tasks
           (fun s => length (gpus s) = length (gpus (initial r h tasks)))); [done|].
  intros a s1 s2 H1 Htr. rewrite <- H1.
  destruct Htr; cbn [gpus]; try done.
  - match goal with H : Slots.try_acquire _ _ = _ |- _ =>
      apply try_acquire_Some in H as (_ & _ & ->) end.
    apply length_add_at.
  - apply length_add_at.
Qed.

(** C1.  In every state a run of the pool can reach, the free-capacity
    counter of each resource id lies between 0 and the capacity the id got
    at construction, which is [max_workers_per_gpu] for a visible id, and
    the number of jobs holding a claim on the id is at most that capacity. *)
Theorem C1_slot_counters_within_capacity r h tasks s g :
  0 <= max_workers_per_gpu r < Slots.uint_modulus →
  reachable r h tasks s →
  (∀ x, gpus s !! g = Some x → 0 <= x <= capacity r h g) ∧
  0 <= holders (workers s) g <= capacity r h g ∧
  (g ∈ Inventory.all_gpu_ids (cuda_visible_devices h) (device_count h) →
   capacity r h g = max_workers_per_gpu r ∧ is_Some (gpus s !! g)).
Proof.
  intros Hm Hreach.
  pose proof (slot_inv_reachable r h tasks s Hm Hreach g) as Hinv.
  pose proof (holders_nonneg (workers s) g) as Hnn.
  pose proof (capacity_bounds r h g Hm) as Hcap.
  split; [|split].
  - intros x Hx. rewrite Hx in Hinv. lia.
  - destruct (gpus s !! g); lia.
  - intros Hg. split.
    + unfold capacity. by rewrite bool_decide_eq_true_2.
    + apply lookup_lt_is_Some. rewrite (length_gpus_reachable r h tasks s Hreach).
      apply lookup_lt_is_Some. unfold initial. cbn [gpus]. by apply init_gpus_covers.
Qed.

Lemma C1_witness :
  0 <= max_workers_per_gpu runner < Slots.uint_modulus ∧
  reachable runner two_gpus batch both_held ∧
  (∀ x, gpus both_held !! 0%nat = Some x → 0 <= x <= capacity runner two_gpus 0) ∧
  0 <= holders (workers both_held) 0 <= capacity runner two_gpus 0 ∧
  (0%nat ∈ Inventory.all_gpu_ids (cuda_visible_devices two_gpus) (device_count two_gpus) →
   capacity runner two_gpus 0 = max_workers_per_gpu runner ∧
   is_Some (gpus both_held !! 0%nat)).
Proof.
  assert (0 <= max_workers_per_gpu runner < Slots.uint_modulus) as Hm
    by (unfold Slots.uint_modulus; simpl; lia).
  assert (reachable runner two_gpus batch both_held) as Hreach
    by (exists [Start 0; Start 1; Poll 0; Poll 1]; reflexivity).
  split; [exact Hm|]. split; [exact Hreach|].
  exact (C1_slot_counters_within_capacity runner two_gpus batch both_held 0%nat Hm Hreach).
Defined.

(** C3 (the code at the failing input).  Where only the device 1 is
    visible the table is [0; 1]: its length is 2 and its capacity is 1.  A
    task that asks for 2 slots passes the assertion of line 97, enters the
    acquire loop, and no poll ever grants it. *)
Theorem C3_sparse_ids_overdemand_polls :
  gpus (initial runner only_gpu_1 greedy) = [0; 1] ∧
  Slots.total_capacity (gpus (initial runner only_gpu_1 greedy)) = 1 ∧
  Slots.fits_table (gpus (initial runner only_gpu_1 greedy)) 2 = true ∧
  (∀ schedule s,
     run runner only_gpu_1 greedy schedule (initial runner only_gpu_1 greedy) = Some s →
     gpus s = [0; 1] ∧
     (workers s = [Queued] ∨ ∃ sleeps, workers s = [Polling sleeps])) ∧
  reachable runner only_gpu_1 greedy still_polling ∧
  workers still_polling = [Polling 3].
Proof.
  split; [reflexivity|]. split; [reflexivity|]. split; [reflexivity|].
  split; [|split; [exists [Start 0; Poll 0; Poll 0; Poll 0]; reflexivity|reflexivity]].
  intros schedule s.
  apply (run_invariant runner only_gpu_1 greedy
           (fun s => gpus s = [0; 1] ∧
                     (workers s = [Queued] ∨ ∃ sleeps, workers s = [Polling sleeps]))).
  - clear. intros a s s' [Hg Hw] Htr.
    assert (∀ i w, workers s !! i = Some w → i = 0%nat ∧
              (w = Queued ∨ ∃ sleeps, w = Polling sleeps)) as Hone.
    { intros i w Hi. destruct Hw as [Hw|[k Hw]]; rewrite Hw in Hi;
        destruct i as [|i]; simpl in Hi; simplify_eq; eauto. }
    destruct Htr as [i ? ? Ht Hi|i ? ? Ht Hi ? ? Hadm|i ? ? ? ? ? Ht Hi Hacq|i ? ? ? Ht Hi
                    |i ? ? ? ? ? ? Ht Hi|i ? ? ? ? ? ? Ht Hi|i ? ? ? Hi];
      cbn [gpus workers];
      destruct (Hone _ _ Hi) as [-> Hshape];
      (destruct Hshape as [?|[? ?]]; try done);
      (destruct Hw as [Hw|[k Hw]]; rewrite Hw in *; simpl in *; simplify_eq).
    + split; [done|]. right. by exists 0%nat.
    + match goal with H : Slots.fits_table _ _ = false |- _ =>
        rewrite Hg in H; discriminate H end.
    + match goal with H : Slots.try_acquire _ _ = Some _ |- _ =>
        rewrite Hg in H; discriminate H end.
    + split; [done|]. right. by eexists.
  - split; [reflexivity|]. by left.
Qed.

Lemma C3_witness :
  run runner only_gpu_1 greedy [Start 0; Poll 0; Poll 0; Poll 0]
    (initial runner only_gpu_1 greedy) = Some still_polling ∧
  gpus still_polling = [0; 1] ∧
  (workers still_polling = [Queued] ∨ ∃ sleeps, workers still_polling = [Polling sleeps]).
Proof.
  assert (run runner only_gpu_1 greedy [Start 0; Poll 0; Poll 0; Poll 0]
            (initial runner only_gpu_1 greedy) = Some still_polling) as Hrun
    by reflexivity.
  split; [exact Hrun|].
  destruct C3_sparse_ids_overdemand_polls as (_ & _ & _ & Hall & _).
  exact (Hall _ _ Hrun).
Defined.

(** The same for every table: the ids with free capacity are never more
    than in the table as built, so a demand above their number is never
    granted, while the assertion of line 97 lets it in as soon as it is at
    most the length of the table. *)
Lemma count_free_le gs1 gs2 :
  length gs1 = length gs2 →
  (∀ g x, gs1 !! g = Some x → 0 < x → ∃ y, gs2 !! g = Some y ∧ 0 < y) →
  Slots.count_free gs1 <= Slots.count_free gs2.
Proof.
  unfold Slots.count_free. revert gs2.
  induction gs1 as [|x gs1 IH]; intros [|y gs2] Hlen Hpos; try done.
  rewrite !filter_cons.
  assert (Z.of_nat (length (filter (fun x => 0 < x) gs1)) <=
          Z.of_nat (length (filter (fun x => 0 < x) gs2))) as Hrec.
  { apply IH; [simpl in Hlen; lia|]. intros g. apply (Hpos (S g)). }
  destruct (decide (0 < x)) as [Hx|Hx]; destruct (decide (0 < y)) as [Hy|Hy];
    simpl; try lia.
  destruct (Hpos 0%nat x eq_refl Hx) as (y' & [= <-] & Hy'). lia.
Qed.

Lemma never_granted_above_free_ids r h tasks s n :
  0 <= max_workers_per_gpu r < Slots.uint_modulus →
  reachable r h tasks s →
  Slots.count_free (gpus (initial r h tasks)) < n →
  Slots.try_acquire (gpus s) n = None ∧
  Slots.fits_table (gpus s) n = Slots.fits_table (gpus (initial r h tasks)) n.
Proof.
  intros Hm Hreach Hn.
  pose proof (length_gpus_reachable r h tasks s Hreach) as Hlen.
  split; [|unfold Slots.fits_table; by rewrite Hlen].
  unfold Slots.try_acquire. rewrite bool_decide_eq_false_2; [done|].
  enough (Slots.count_free (gpus s) <= Slots.count_free (gpus (initial r h tasks))) by lia.
  apply count_free_le; [done|]. intros g x Hx Hpos.
  pose proof (slot_inv_reachable r h tasks s Hm Hreach g) as Hs.
  pose proof (slot_inv_initial r h tasks Hm g) as H0.
  rewrite Hx in Hs.
  assert (holders (workers (initial r h tasks)) g = 0) as H00
    by apply holders_replicate_Queued.
  rewrite H00 in H0.
  pose proof (holders_nonneg (workers s) g).
  destruct (gpus (initial r h tasks) !! g) as [y|] eqn:Hy.
  - exists y. split; [done|]. lia.
  - apply lookup_lt_Some in Hx. apply lookup_ge_None in Hy. lia.
Qed.

(** A demand above the length of the table is refused at admission, before
    any poll. *)
Lemma overdemand_rejected_beyond_length r h tasks i task s s' :
  Z.of_nat (length (gpus s)) < num_gpus task →
  tasks !! i = Some task →
  transition r h tasks (Start i) s s' →
  workers s' !! i = Some Rejected ∧ log s' = log s.
Proof.
  intros Hover Ht Htr. inversion Htr; subst; simplify_eq; cbn [workers log].
  - match goal with H : Slots.fits_table _ _ = true |- _ =>
      unfold Slots.fits_table in H; apply bool_decide_eq_true in H end. lia.
  - split; [|done]. apply list_lookup_insert_eq. by eapply lookup_lt_Some.
Qed.

(** C4 (as stated, refuted).  When the child cannot be run, [_launch]
    raises and line 119 is not reached: the worker is over, one grant was
    recorded, no release, and the counter of device 0 stays at 0. *)
Lemma C4_counterexample : ¬ releases_balanced runner two_gpus [job "a" 1].
Proof.
  intros Hbal.
  destruct (Hbal crashed) as [Hcount _].
  - exists [Start 0; Poll 0; Launch 0 env_spawn_fails]. reflexivity.
  - reflexivity.
  - discriminate Hcount.
Qed.

(** C4 (amended).  For every worker the grant and the release of its ids
    are recorded at most once each, and the release exactly once when
    [submit] returned, that is when [_launch] returned, with a zero or a
    non-zero exit code.  At the end of a batch in which no [_launch]
    raised, the releases equal the grants and every slot counter is back
    at its initial value. *)
Theorem C4_released_once_when_launch_returns r h tasks s :
  0 <= max_workers_per_gpu r < Slots.uint_modulus →
  reachable r h tasks s →
  (∀ i w, workers s !! i = Some w →
     count (acquire_of i) (log s) = (if acquired w then 1 else 0)%nat ∧
     count (release_of i) (log s) = (if released w then 1 else 0)%nat) ∧
  (finished s = true →
   (∀ i e gpu_ids, workers s !! i ≠ Some (Crashed e gpu_ids)) →
   count is_release (log s) = count is_acquire (log s) ∧
   gpus s = gpus (initial r h tasks)).
Proof.
  intros Hm Hreach.
  destruct (ledger_inv_reachable r h tasks s Hreach) as (Hper & Hacq & Hrel).
  split; [exact Hper|].
  intros Hfin Hnocrash.
  assert (∀ i w, workers s !! i = Some w →
            acquired w = released w ∧ held w = []) as Hover.
  { intros i w Hi. unfold finished in Hfin.
    rewrite forallb_forall in Hfin.
    assert (In w (workers s)) as Hin
      by (apply list_elem_of_In; by eapply list_elem_of_lookup_2).
    specialize (Hfin w Hin). apply bool_decide_eq_true in Hfin as [res Hres].
    destruct w; simplify_eq; try done.
    by destruct (Hnocrash i e gpu_ids). }
  split.
  - apply Nat2Z.inj. rewrite Hacq, Hrel. f_equal. f_equal.
    clear -Hover. revert Hover. generalize (workers s) as ws.
    induction ws as [|w ws IH]; intros Hover; [done|].
    rewrite !filter_cons.
    destruct (Hover 0%nat w eq_refl) as [Heq _].
    specialize (IH (fun i => Hover (S i))).
    rewrite Heq. destruct (decide (released w)); by rewrite IH.
  - assert (∀ g, holders (workers s) g = 0) as Hnone.
    { intros g. unfold holders.
      clear -Hover. revert Hover. generalize (workers s) as ws.
      induction ws as [|w ws IH]; intros Hover; [done|].
      rewrite filter_cons. destruct (Hover 0%nat w eq_refl) as [_ Hheld].
      rewrite decide_False by (rewrite Hheld; apply not_elem_of_nil).
      apply (IH (fun i => Hover (S i))). }
    pose proof (length_gpus_reachable r h tasks s Hreach) as Hlen.
    apply list_eq; intros g.
    pose proof (slot_inv_reachable r h tasks s Hm Hreach g) as Hs.
    pose proof (slot_inv_initial r h tasks Hm g) as H0.
    rewrite Hnone in Hs.
    assert (holders (workers (initial r h tasks)) g = 0) as H00
      by apply holders_replicate_Queued.
    rewrite H00 in H0.
    destruct (gpus s !! g) as [x|] eqn:Hx.
    + destruct (gpus (initial r h tasks) !! g) as [x0|] eqn:Hx0.
      * f_equal. lia.
      * apply lookup_lt_Some in Hx. apply lookup_ge_None in Hx0. lia.
    + destruct (gpus (initial r h tasks) !! g) as [x0|] eqn:Hx0; [|done].
      apply lookup_lt_Some in Hx0. apply lookup_ge_None in Hx. lia.
Qed.

Lemma C4_witness :
  0 <= max_workers_per_gpu runner < Slots.uint_modulus ∧
  reachable runner two_gpus pair_of_jobs one_failed ∧
  finished one_failed = true ∧
  (∀ i e gpu_ids, workers one_failed !! i ≠ Some (Crashed e gpu_ids)) ∧
  count is_release (log one_failed) = count is_acquire (log one_failed) ∧
  gpus one_failed = gpus (initial runner two_gpus pair_of_jobs).
Proof.
  assert (0 <= max_workers_per_gpu runner < Slots.uint_modulus) as Hm
    by (unfold Slots.uint_modulus; simpl; lia).
  assert (reachable runner two_gpus pair_of_jobs one_failed) as Hreach
    by (exists (one_by_one 0 [7; 0]); reflexivity).
  assert (∀ i e gpu_ids, workers one_failed !! i ≠ Some (Crashed e gpu_ids)) as Hno
    by (intros [|[|i]] e gpu_ids; discriminate).
  split; [exact Hm|]. split; [exact Hreach|]. split; [reflexivity|]. split; [exact Hno|].
  exact (proj2 (C4_released_once_when_launch_returns runner two_gpus pair_of_jobs
                  one_failed Hm Hreach) eq_refl Hno).
Defined.

(** C5.  Whatever the slot table, the empty one included, a claim for 0
    slots passes the assertion of line 97 and is granted at the first
    iteration of the loop, with no id and the table unchanged.  In every
    run of the pool the worker of such a task is never sent to sleep, and
    its poll records no sleep and leaves every counter as it was. *)
Theorem C5_acquire_zero_immediate r h tasks s i task :
  reachable r h tasks s →
  tasks !! i = Some task →
  num_gpus task = 0 →
  (∀ gpus0, Slots.fits_table gpus0 0 = true ∧ Slots.try_acquire gpus0 0 = Some ([], gpus0)) ∧
  Slots.try_acquire [] 0 = Some ([], []) ∧
  count (sleep_of i) (log s) = 0%nat ∧
  (∀ sleeps, workers s !! i = Some (Polling sleeps) →
     sleeps = 0%nat ∧
     submit_step r h tasks (Poll i) s =
       Some (State (gpus s) (<[i := Running []]> (workers s)) (world s)
               (log s ++ [EvAcquire i []; EvWrite ("launch " +:+ name task +:+ " on CPU ")]))).
Proof.
  intros Hreach Ht H0.
  destruct (cpu_never_sleeps_reachable r h tasks s Hreach i task Ht H0) as [Hc Hp].
  split; [|split; [reflexivity|split; [exact Hc|]]].
  - intros gpus0. split; [|apply try_acquire_0].
    unfold Slots.fits_table. apply bool_decide_eq_true. lia.
  - intros sleeps Hi. split; [by apply Hp|].
    simpl. rewrite Ht, Hi. simpl. rewrite H0, try_acquire_0.
    unfold launch_message. rewrite H0. by rewrite bool_decide_eq_false_2 by lia.
Qed.

Lemma C5_witness :
  reachable runner no_gpu [job "cpu" 0] cpu_polling ∧
  [job "cpu" 0] !! 0%nat = Some (job "cpu" 0) ∧
  num_gpus (job "cpu" 0) = 0 ∧
  gpus cpu_polling = [] ∧
  workers cpu_polling !! 0%nat = Some (Polling 0) ∧
  submit_step runner no_gpu [job "cpu" 0] (Poll 0) cpu_polling =
    Some (State [] [Running []] empty_world
            [EvAcquire 0 []; EvWrite "launch cpu on CPU "]).
Proof.
  assert (reachable runner no_gpu [job "cpu" 0] cpu_polling) as Hreach
    by (exists [Start 0]; reflexivity).
  split; [exact Hreach|]. split; [reflexivity|]. split; [reflexivity|].
  split; [reflexivity|]. split; [reflexivity|].
  destruct (C5_acquire_zero_immediate runner no_gpu [job "cpu" 0] cpu_polling
              0%nat (job "cpu" 0) Hreach eq_refl eq_refl) as (_ & _ & _ & Hpoll).
  exact (proj2 (Hpoll 0%nat eq_refl)).
Defined.

(** C7 (as stated, refuted).  When the child cannot be run the call of
    [subprocess.run] raises, line 170 is not reached and the temporary
    config file stays. *)
Lemma C7_counterexample :
  ¬ cleanup_guaranteed 4242 env_spawn_fails (job "a" 1) [0%nat] 0 empty_world.
Proof.
  intros [Hgone _]. apply Hgone.
  rewrite _launch_eq. cbn [subprocess_run env_spawn_fails snd files].
  apply elem_of_setup_files.
Qed.

(** C7 (amended).  When the call that runs the child returns, with a zero
    or a non-zero exit code, the temporary config file is removed and the
    outcome is the name of the task with that code.  When that call raises,
    the exception leaves [_launch] and the file stays.  A failure of the
    removal is not caught: [_launch] raises it, reports no outcome, logs
    nothing about it, and the file stays. *)
Theorem C7_cleanup_when_child_returns pid env task gpu_ids index w :
  match subprocess_run env (launch_command pid task gpu_ids index) with
  | Ok code =>
      if os_remove_fails env (param_file_of pid index)
      then
        (_launch pid env task gpu_ids index w).1 = Raise OSError ∧
        param_file_of pid index ∈ files (_launch pid env task gpu_ids index w).2 ∧
        trace (_launch pid env task gpu_ids index w).2 =
          trace w ++ setup_effects pid task gpu_ids index ++ warning_effects task code
      else
        (_launch pid env task gpu_ids index w).1 = Ok (name task, code) ∧
        (param_file_of pid index ∉ files ((_launch pid env task gpu_ids index w).2)) ∧
        In (Remove (param_file_of pid index))
          (trace (_launch pid env task gpu_ids index w).2)
  | Raise e =>
      (_launch pid env task gpu_ids index w).1 = Raise e ∧
      param_file_of pid index ∈ files (_launch pid env task gpu_ids index w).2
  end.
Proof.
  rewrite _launch_eq. cbv zeta.
  destruct (subprocess_run env _) as [code|e].
  - destruct (os_remove_fails env _); cbn [fst snd files trace].
    + split; [done|]. split; [apply elem_of_setup_files|]. by rewrite <- app_assoc.
    + split; [done|]. split; [apply not_elem_of_del_file|].
      apply in_or_app. right. apply in_or_app. right. by left.
  - cbn [fst snd files]. split; [done|]. apply elem_of_setup_files.
Qed.

(** C8 (as stated, refuted).  For a task that asks for no slot the template
    still starts with the assignment of the variable, to the empty string. *)
Lemma C8_counterexample : ¬ bound_iff_positive (job "cpu" 0) [].
Proof.
  intros Hiff. destruct (Hiff [] [] eq_refl) as [Hpos _].
  specialize (Hpos eq_refl). simpl in Hpos. lia.
Qed.

(** C9 (the code at the failing input).  On the value "-12" the scan of
    the code starts a match at the digit 2, whose predecessor is the digit
    1 and not the minus sign, and the inventory is the id 2; the digit run
    "12" comes right after a minus sign, so the inventory of the
    specification is empty.  When the variable is absent the inventory is
    the ids from 0 up to the device count. *)
Theorem C9_minus_before_several_digits device_count :
  Inventory.all_gpu_ids (Some "-12") device_count = [2%nat] ∧
  Inventory.spec_ids "-12" = [] ∧
  Inventory.all_gpu_ids (Some "-1") device_count = Inventory.spec_ids "-1" ∧
  Inventory.all_gpu_ids None device_count = seq 0 device_count.
Proof. repeat split. Qed.

(** ** The scenarios of the specification *)

(** Scenario A: two devices, three tasks of one slot each, two threads. *)
Example scenario_A :
  launch runner two_gpus batch
    [Start 0; Start 1; Poll 0; Poll 1; Launch 0 (env_exit 0); Release 0;
     Start 2; Poll 2; Launch 1 (env_exit 0); Launch 2 (env_exit 0);
     Release 2; Release 1]
  = Some (Status [Ok ("a", 0); Ok ("b", 0); Ok ("c", 0)]).
Proof. reflexivity. Qed.

(** With both devices held the third task cannot start while the two
    threads are occupied, and once started it sleeps. *)
Example scenario_A_third_waits :
  submit_step runner two_gpus batch (Start 2) both_held = None.
Proof. reflexivity. Qed.

(** Scenario B: no device, tasks without slots. *)
Example scenario_B :
  launch runner no_gpu [job "x" 0; job "y" 0; job "z" 0]
    [Start 0; Start 1; Poll 1; Poll 0; Launch 1 (env_exit 0); Release 1; Start 2;
     Launch 0 (env_exit 0); Poll 2; Release 0; Launch 2 (env_exit 0); Release 2]
  = Some (Status [Ok ("x", 0); Ok ("y", 0); Ok ("z", 0)]).
Proof. reflexivity. Qed.

(** Scenario C: one child exits with the code 7. *)
Example scenario_C :
  launch runner two_gpus pair_of_jobs (one_by_one 0 [7; 0])
  = Some (Status [Ok ("a", 7); Ok ("b", 0)]).
Proof. reflexivity. Qed.

(** The visible ids of usual values of the variable. *)
Example inventory_list : Inventory.all_gpu_ids (Some "0,1,3") 8 = [0; 1; 3]%nat.
Proof. reflexivity. Qed.

Example inventory_minus_one : Inventory.all_gpu_ids (Some "-1") 8 = [].
Proof. reflexivity. Qed.

Example inventory_table : Slots.init_gpus [1; 3]%nat 2 = [0; 2; 0; 2].
Proof. reflexivity. Qed.

Example log_directory : Str.split_head "outputs/logs/infer/a.out" = "outputs/logs/infer".
Proof. reflexivity. Qed.

End Claims.

(** * Further properties *)

(** ** Printing and scanning resource ids *)

Module IdsFacts.
Import Inventory More.

Lemma is_digit_string_of_uint d :
  Forall (fun c => Str.is_digit c = true) (chars (NilEmpty.string_of_uint d)).
Proof. unfold chars. induction d; simpl; constructor; done. Qed.

Lemma int_fold_string_of_uint d acc :
  fold_left (fun acc c => (10 * acc + Str.digit_value c)%nat)
    (chars (NilEmpty.string_of_uint d)) acc
  = Nat.of_uint_acc d acc.
Proof.
  unfold chars. revert acc. induction d; intros acc; cbn [NilEmpty.string_of_uint
    list_ascii_of_string fold_left Nat.of_uint_acc]; [done|..];
    rewrite IHd, Nat.tail_mul_spec; f_equal;
    unfold Str.digit_value; cbn [nat_of_ascii]; vm_compute (nat_of_ascii _ - 48)%nat; lia.
Qed.

(** Reading back a printed id gives the id. *)
Lemma int_str n : Str.int (chars (Str.str n)) = n.
Proof.
  unfold Str.int, Str.str. rewrite int_fold_string_of_uint.
  apply DecimalNat.Unsigned.of_to.
Qed.

Lemma str_inj n m : Str.str n = Str.str m → n = m.
Proof. intros H. rewrite <- (int_str n), <- (int_str m). by rewrite H. Qed.

Lemma str_digits n : Forall (fun c => Str.is_digit c = true) (chars (Str.str n)).
Proof. apply is_digit_string_of_uint. Qed.

Lemma str_nonempty n : Str.str n ≠ "".
Proof.
  unfold Str.str. intros H.
  assert (Nat.to_uint n = Decimal.Nil) as Hnil by (destruct (Nat.to_uint n); done).
  pose proof (DecimalNat.Unsigned.of_to n) as Hn. rewrite Hnil in Hn.
  cbn in Hn. subst n. done.
Qed.

(** While a match is being extended the character before does not
    matter. *)
Lemma findall_from_Some_prev p1 p2 m s :
  findall_from p1 (Some m) s = findall_from p2 (Some m) s.
Proof. by destruct s. Qed.

Lemma scan_block ds rest prev m :
  Forall (fun c => Str.is_digit c = true) (chars ds) →
  findall_from prev (Some m) (ds +:+ rest) =
  findall_from None (Some (m ++ chars ds)) rest.
Proof.
  unfold chars. revert prev m. induction ds as [|c ds IH]; intros prev m Hds; simpl.
  - rewrite app_nil_r. apply findall_from_Some_prev.
  - apply Forall_cons in Hds as [Hc Hds]. rewrite Hc.
    rewrite IH by done. by rewrite <- app_assoc.
Qed.

Lemma scan_start ds rest prev :
  ds ≠ "" →
  Forall (fun c => Str.is_digit c = true) (chars ds) →
  not_minus prev →
  findall_from prev None (ds +:+ rest) = findall_from None (Some (chars ds)) rest.
Proof.
  destruct ds as [|c ds]; [done|]. intros _ Hds Hprev.
  unfold chars in *. simpl in *. apply Forall_cons in Hds as [Hc Hds]. rewrite Hc.
  assert (negb (match prev with Some p => Str.is_minus p | None => false end) = true)
    as -> by (destruct prev; simpl in *; [by rewrite Hprev|done]).
  simpl. by rewrite (scan_block ds rest (Some c) [c]).
Qed.

Lemma append_empty_r s : s +:+ "" = s.
Proof.
  induction s as [|c s IH]; [done|].
  change (String c (s +:+ "") = String c s). by f_equal.
Qed.

Lemma scan_joined ids prev :
  not_minus prev →
  map Str.int (findall_from prev None (Str.join "," (map Str.str ids))) = ids.
Proof.
  revert prev. induction ids as [|n ids IH]; intros prev Hprev; [done|].
  destruct ids as [|m ids].
  - cbn [map Str.join].
    rewrite <- (append_empty_r (Str.str n)).
    rewrite scan_start by (done || apply str_nonempty || apply str_digits).
    simpl. by rewrite int_str.
  - change (Str.join "," (map Str.str (n :: m :: ids)))
      with (Str.str n +:+ String "," (Str.join "," (map Str.str (m :: ids)))).
    rewrite scan_start by (done || apply str_nonempty || apply str_digits).
    cbn [findall_from]. change (Str.is_digit ",") with false. cbv iota.
    cbn [map]. rewrite int_str. f_equal. by apply IH.
Qed.

Lemma findall_from_digits s prev cur :
  (∀ m, cur = Some m → m ≠ [] ∧ Forall (fun c => Str.is_digit c = true) m) →
  Forall (fun m => m ≠ [] ∧ Forall (fun c => Str.is_digit c = true) m)
    (findall_from prev cur s).
Proof.
  revert prev cur. induction s as [|c s IH]; intros prev cur Hcur; simpl.
  - destruct cur as [m|]; [|constructor]. constructor; [by apply Hcur|constructor].
  - destruct cur as [m|].
    + destruct (Hcur m eq_refl) as [Hne Hm].
      destruct (Str.is_digit c) eqn:Hc.
      * apply IH. intros m' [= <-]. split; [by destruct m|].
        apply Forall_app. split; [done|]. by constructor.
      * constructor; [done|]. by apply IH.
    + destruct (Str.is_digit c) eqn:Hc; simpl.
      * destruct (negb _); apply IH; try done.
        intros m' [= <-]. split; [done|]. by constructor.
      * by apply IH.
Qed.

(** Two strings of digits followed by the same character that is no
    digit. *)
Lemma digits_sep_inj c d1 d2 r1 r2 :
  Str.is_digit c = false →
  Forall (fun c => Str.is_digit c = true) (chars d1) →
  Forall (fun c => Str.is_digit c = true) (chars d2) →
  d1 +:+ String c r1 = d2 +:+ String c r2 →
  d1 = d2 ∧ r1 = r2.
Proof.
  unfold chars. intros Hc. revert d2.
  induction d1 as [|a d1 IH]; intros [|b d2] H1 H2; simpl in *; intros Heq.
  - by injection Heq.
  - injection Heq as -> _. apply Forall_cons in H2 as [Hb _]. congruence.
  - injection Heq as -> _. apply Forall_cons in H1 as [Ha _]. congruence.
  - injection Heq as -> Heq.
    apply Forall_cons in H1 as [_ H1]. apply Forall_cons in H2 as [_ H2].
    destruct (IH d2 H1 H2 Heq) as [-> ->]. done.
Qed.

Lemma param_file_of_inj pid1 index1 pid2 index2 :
  Exec.param_file_of pid1 index1 = Exec.param_file_of pid2 index2 →
  pid1 = pid2 ∧ index1 = index2.
Proof.
  unfold Exec.param_file_of. simpl. intros [= Heq].
  apply (digits_sep_inj "_") in Heq as [Hpid Heq]; [|done|apply str_digits..].
  apply (digits_sep_inj "_") in Heq as [Hidx _]; [|done|apply str_digits..].
  split; by apply str_inj.
Qed.

End IdsFacts.

(** ** The table as built, and the choice of ids *)

Module TableFacts.
Import Exec Sched Inv More SlotsFacts SchedFacts.

Lemma where_from_lookup_ge a k i x :
  Slots.where_from k a !! i = Some x → (k + i ≤ x)%nat.
Proof.
  revert k i. induction a as [|y a IH]; intros k i; simpl; [done|].
  case_bool_decide.
  - destruct i as [|i]; simpl.
    + intros [= <-]. lia.
    + intros Hi%IH. lia.
  - intros Hi%IH. lia.
Qed.

Lemma ascending_where_from a k : ascending (Slots.where_from k a).
Proof.
  revert k. induction a as [|y a IH]; intros k i j x z Hij; simpl; [done|].
  case_bool_decide; [|by apply IH].
  destruct j as [|j]; [lia|]. destruct i as [|i]; simpl.
  - intros [= <-] Hz%where_from_lookup_ge. lia.
  - apply IH. lia.
Qed.

Lemma ascending_take l n : ascending l → ascending (take n l).
Proof.
  intros Hl i j x y Hij [Hx _]%lookup_take_Some [Hy _]%lookup_take_Some.
  by eapply Hl.
Qed.

Lemma take_lowest l n g g' :
  ascending l → g ∈ take n l → g' ∈ l → (g' < g)%nat → g' ∈ take n l.
Proof.
  intros Hl (p & Hp & Hpn)%elem_of_take (q & Hq)%list_elem_of_lookup_1 Hlt.
  apply elem_of_take. exists q. split; [done|].
  destruct (decide (q < p)%nat) as [Hqp|Hqp]; [lia|].
  destruct (decide (q = p)) as [->|Hne]; [simplify_eq; lia|].
  assert (g < g')%nat by (eapply (Hl p q); [lia|done..]). lia.
Qed.

Lemma slice_to_take {A} (l : list A) n : ∃ m, Slots.slice_to l n = take m l.
Proof. unfold Slots.slice_to. case_bool_decide; eauto. Qed.

(** The sum and the count of a table whose entries are [u] on the ids and 0
    elsewhere. *)
Lemma total_capacity_snoc t x :
  Slots.total_capacity (t ++ [x]) = Slots.total_capacity t + x.
Proof.
  unfold Slots.total_capacity. induction t as [|y t IH]; simpl; [lia|].
  rewrite IH. lia.
Qed.

Lemma indicator_table (t : list Z) (ids : list nat) (u : Z) :
  (∀ g x, t !! g = Some x → x = if bool_decide (g ∈ ids) then u else 0) →
  Slots.total_capacity t =
    u * Z.of_nat (length (filter (fun g => g ∈ ids) (seq 0 (length t)))) ∧
  Slots.count_free t =
    if bool_decide (0 < u)
    then Z.of_nat (length (filter (fun g => g ∈ ids) (seq 0 (length t))))
    else 0.
Proof.
  induction t as [|x t IH] using rev_ind; intros Ht.
  - simpl. unfold Slots.total_capacity, Slots.count_free. simpl.
    split; [lia|]. by case_bool_decide.
  - destruct IH as [IHt IHc].
    { intros g y Hg. apply Ht. by apply lookup_app_l_Some. }
    pose proof (Ht (length t) x (list_lookup_middle _ [] _ _ eq_refl)) as Hx.
    rewrite total_capacity_snoc, IHt. unfold Slots.count_free in *.
    rewrite length_app, Nat.add_1_r, seq_S, !filter_app, !length_app.
    cbn [Nat.add]. rewrite !filter_cons, !filter_nil.
    destruct (decide (length t ∈ ids)) as [Hin|Hin].
    + rewrite bool_decide_eq_true_2 in Hx by done. subst x.
      destruct (decide (0 < u)); case_bool_decide; simpl; try lia.
    + rewrite bool_decide_eq_false_2 in Hx by done. subst x.
      rewrite decide_False by lia. simpl. split; [lia|].
      case_bool_decide; lia.
Qed.

Lemma filter_ids_seq ids n :
  (∀ g, g ∈ ids → (g < n)%nat) →
  length (filter (fun g => g ∈ ids) (seq 0 n)) = length (remove_dups ids).
Proof.
  intros Hids. apply Permutation_length, NoDup_Permutation.
  - apply NoDup_filter, NoDup_seq.
  - apply NoDup_remove_dups.
  - intros g. rewrite list_elem_of_filter, elem_of_seq, elem_of_remove_dups.
    split; [by intros [? _]|]. intros Hg. split; [done|]. specialize (Hids g Hg). lia.
Qed.

Lemma filter_all {A} (P : A → Prop) `{!∀ x, Decision (P x)} (l : list A) :
  Forall P l → filter P l = l.
Proof.
  induction 1 as [|x l Hx _ IH]; [done|]. by rewrite filter_cons_True, IH.
Qed.

Lemma length_init_gpus ids m :
  length (Slots.init_gpus ids m) =
  if bool_decide (ids = []) then 0%nat else S (max_list ids).
Proof.
  unfold Slots.init_gpus, Slots.assign_at, Slots.np_zeros.
  destruct ids as [|g ids]; [done|].
  rewrite bool_decide_eq_true_2 by (simpl; lia).
  rewrite bool_decide_eq_false_2 by done.
  rewrite length_imap, length_replicate. lia.
Qed.

Lemma init_gpus_ids_in_range ids m g :
  g ∈ ids → (g < length (Slots.init_gpus ids m))%nat.
Proof. intros Hg. apply lookup_lt_is_Some. by apply init_gpus_covers. Qed.

Lemma init_gpus_same_ids ids1 ids2 m :
  (∀ g, g ∈ ids1 ↔ g ∈ ids2) → Slots.init_gpus ids1 m = Slots.init_gpus ids2 m.
Proof.
  intros Hsame.
  assert (length (Slots.init_gpus ids1 m) = length (Slots.init_gpus ids2 m)) as Hlen.
  { rewrite !length_init_gpus.
    destruct ids1 as [|a ids1], ids2 as [|b ids2]; try done.
    - by destruct (not_elem_of_nil b); apply Hsame; left.
    - by destruct (not_elem_of_nil a); apply Hsame; left.
    - rewrite !bool_decide_eq_false_2 by done. f_equal.
      pose proof (max_list_elem_of (a :: ids1) ltac:(done)) as H1.
      pose proof (max_list_elem_of (b :: ids2) ltac:(done)) as H2.
      apply Hsame in H1. apply Hsame in H2.
      apply max_list_elem_of_le in H1, H2. lia. }
  apply list_eq; intros g.
  destruct (Slots.init_gpus ids1 m !! g) as [x|] eqn:H1.
  - destruct (lookup_lt_is_Some_2 (Slots.init_gpus ids2 m) g) as [y H2].
    { rewrite <- Hlen. by eapply lookup_lt_Some. }
    rewrite H2. apply lookup_init_gpus in H1, H2. subst. f_equal.
    destruct (decide (g ∈ ids1)) as [Hg|Hg].
    + rewrite !bool_decide_eq_true_2; [done|by apply Hsame|done].
    + rewrite !bool_decide_eq_false_2; [done|by rewrite <- Hsame|done].
  - symmetry. apply lookup_ge_None. rewrite <- Hlen. by apply lookup_ge_None.
Qed.

Lemma dense_when_absent r h tasks :
  cuda_visible_devices h = None → dense r h tasks.
Proof.
  intros Hnone g. unfold initial. cbn [gpus]. rewrite Hnone. cbn [Inventory.all_gpu_ids].
  rewrite length_init_gpus. case_bool_decide as Hnil; [lia|].
  pose proof (max_list_elem_of _ Hnil) as Hmax. apply elem_of_seq in Hmax.
  intros Hg. apply elem_of_seq. lia.
Qed.

End TableFacts.

(** ** More invariants of the pool *)

Module PoolFacts.
Import Exec Sched Inv More SlotsFacts SchedFacts ExecFacts LedgerFacts RunFacts Sequential.

Lemma tally_insert_bool (p : worker → bool) ws i w w' :
  ws !! i = Some w →
  Z.of_nat (length (filter (fun w => p w) (<[i:=w']> ws))) =
  Z.of_nat (length (filter (fun w => p w) ws))
  - (if p w then 1 else 0) + (if p w' then 1 else 0).
Proof.
  intros Hi.
  etrans; [exact (tally_insert (fun w0 : worker => p w0) ws i w w' Hi)|].
  cbv beta. destruct (p w), (p w'); repeat case_decide; simpl in *; done || lia.
Qed.

(** What any step does to the workers: one of them moves on. *)
Lemma transition_shape r h tasks a s s' :
  transition r h tasks a s s' →
  ∃ k w w',
    workers s !! k = Some w ∧
    workers s' = <[k:=w']> (workers s) ∧
    started w' = true ∧
    (started w = true ∨
     (w = Queued ∧ forallb started (take k (workers s)) = true ∧
      in_flight (workers s) < max_num_workers r)) ∧
    (busy w' = true → busy w = true ∨ w = Queued).
Proof.
  destruct 1 as [i|i|i|i|i|i|i]; cbn [workers];
    eexists i, _, _; (split; [done|]); (split; [done|]); (split; [done|]);
    (split; [|simpl; auto]); simpl; auto.
Qed.

Lemma in_flight_bounded_step r h tasks a s s' :
  in_flight (workers s) <= max_num_workers r →
  transition r h tasks a s s' →
  in_flight (workers s') <= max_num_workers r.
Proof.
  intros Hinv (k & w & w' & Hk & -> & _ & Hstart & Hbusy)%transition_shape.
  unfold in_flight in *. rewrite (tally_insert_bool busy _ _ _ _ Hk).
  destruct (busy w') eqn:Hw'.
  - destruct (Hbusy eq_refl) as [->| ->]; [lia|].
    destruct Hstart as [|(_ & _ & Hlt)]; [done|]. simpl. lia.
  - destruct (busy w); lia.
Qed.

Lemma in_order_step r h tasks a s s' :
  in_order (workers s) → transition r h tasks a s s' → in_order (workers s').
Proof.
  intros Hinv (k & w & w' & Hk & -> & Hw' & Hstart & _)%transition_shape.
  intros i j wj Hij Hj Hwj.
  assert (k < length (workers s))%nat as Hlen by (by eapply lookup_lt_Some).
  assert (∃ wi, workers s !! i = Some wi ∧ (i = k ∨ started wi = true)) as (wi & Hi & Hwi).
  { destruct (decide (j = k)) as [->|Hjk].
    - destruct Hstart as [Hw|(-> & Hall & _)].
      + destruct (Hinv i k w Hij Hk Hw) as (wi & ? & ?). eauto.
      + rewrite forallb_forall in Hall.
        destruct (lookup_lt_is_Some_2 (workers s) i ltac:(lia)) as [wi Hi].
        exists wi. split; [done|]. right. apply Hall.
        apply list_elem_of_In, elem_of_take. eauto.
    - rewrite list_lookup_insert_ne in Hj by done.
      destruct (Hinv i j wj Hij Hj Hwj) as (wi & ? & ?). eauto. }
  destruct (decide (i = k)) as [->|Hik].
  - exists w'. split; [|done]. by apply list_lookup_insert_eq.
  - exists wi. rewrite list_lookup_insert_ne by done. by destruct Hwi.
Qed.

Lemma progress_step r h tasks a s s' :
  Z.of_nat (count is_progress (log s)) =
    Z.of_nat (length (filter (fun w => returned w) (workers s))) →
  transition r h tasks a s s' →
  Z.of_nat (count is_progress (log s')) =
    Z.of_nat (length (filter (fun w => returned w) (workers s'))).
Proof.
  intros Hinv Htr.
  destruct Htr as [i ? ? ? Hi|i ? ? ? Hi|i ? ? ? ? ? ? Hi|i ? ? ? ? Hi
                  |i ? ? ? ? ? ? ? Hi|i ? ? ? ? ? ? ? Hi|i ? ? ? Hi];
    cbn [workers log];
    rewrite (tally_insert_bool returned _ _ _ _ Hi);
    rewrite ?count_app, ?count_cons, ?count_nil; cbn [returned is_progress]; lia.
Qed.

Lemma crashed_stable_step r h tasks a s s' i e gpu_ids :
  transition r h tasks a s s' →
  workers s !! i = Some (Crashed e gpu_ids) →
  workers s' !! i = Some (Crashed e gpu_ids).
Proof.
  intros Htr Hi.
  destruct Htr as [k ? ? ? Hk|k ? ? ? Hk|k ? ? ? ? ? ? Hk|k ? ? ? ? Hk
                  |k ? ? ? ? ? ? ? Hk|k ? ? ? ? ? ? ? Hk|k ? ? ? Hk];
    cbn [workers];
    (destruct (decide (i = k)) as [->|Hne];
     [rewrite Hk in Hi; discriminate Hi|by rewrite list_lookup_insert_ne]).
Qed.

Lemma crashed_stable r h tasks schedule s s' i e gpu_ids :
  run r h tasks schedule s = Some s' →
  workers s !! i = Some (Crashed e gpu_ids) →
  workers s' !! i = Some (Crashed e gpu_ids).
Proof.
  revert s. induction schedule as [|a schedule IH]; intros s; simpl.
  - by intros [= <-].
  - destruct (submit_step r h tasks a s) as [s1|] eqn:H1; [|done]. simpl.
    intros Hrun Hi. apply step_transition in H1.
    eapply IH; [done|]. by eapply crashed_stable_step.
Qed.

Lemma reachable_run r h tasks schedule s s' :
  reachable r h tasks s → run r h tasks schedule s = Some s' → reachable r h tasks s'.
Proof.
  intros [sch0 H0] Hrun. exists (sch0 ++ schedule). rewrite run_app, H0. done.
Qed.

Lemma one_in_filter {A} (P : A → Prop) `{!∀ x, Decision (P x)} (l : list A) i x :
  l !! i = Some x → P x → (1 ≤ length (filter P l))%nat.
Proof.
  intros Hi Hx.
  assert (x ∈ filter P l) as Hin
    by (apply list_elem_of_filter; split; [done|by eapply list_elem_of_lookup_2]).
  destruct (filter P l); [by apply elem_of_nil in Hin|simpl; lia].
Qed.

Lemma two_in_filter {A} (P : A → Prop) `{!∀ x, Decision (P x)} (l : list A) i j x y :
  i ≠ j → l !! i = Some x → l !! j = Some y → P x → P y →
  (2 ≤ length (filter P l))%nat.
Proof.
  revert i j. induction l as [|z l IH]; intros i j Hij Hi Hj Hx Hy; [done|].
  rewrite filter_cons.
  destruct i as [|i], j as [|j]; simpl in *; simplify_eq.
  - rewrite decide_True by done. simpl.
    pose proof (one_in_filter P l j y Hj Hy). lia.
  - rewrite decide_True by done. simpl.
    pose proof (one_in_filter P l i x Hi Hx). lia.
  - assert (i ≠ j) by congruence.
    pose proof (IH i j ltac:(done) Hi Hj Hx Hy).
    destruct (decide (P z)); simpl; lia.
Qed.

(** *** Running every task in turn, the refused ones included *)

Lemma forallb_started_settled pre :
  Forall (fun w => settled w = true) pre → forallb started pre = true.
Proof.
  induction 1 as [|w pre Hw _ IH]; [done|]. simpl. rewrite IH. by destruct w.
Qed.

Lemma in_flight_settled pre n :
  Forall (fun w => settled w = true) pre →
  in_flight (pre ++ replicate n Queued) = 0.
Proof.
  intros Hpre. unfold in_flight. rewrite filter_app, length_app.
  assert (filter (fun w => busy w) pre = []) as ->.
  { induction Hpre as [|w pre Hw _ IH]; [done|].
    rewrite filter_cons, IH. by destruct w. }
  assert (filter (fun w => busy w) (replicate n Queued) = []) as ->; [|done].
  induction n as [|n IH]; [done|]. simpl. by rewrite filter_cons, IH.
Qed.

Lemma each_in_turn_from r h tasks gpus0 :
  0 < max_num_workers r →
  (∀ g x, gpus0 !! g = Some x → 0 <= x < Slots.uint_modulus) →
  ∀ rest codes before pre world0 log0,
    tasks = before ++ rest →
    length pre = length before →
    length codes = length rest →
    Forall (fun w => settled w = true) pre →
    Forall (fun task => Slots.fits_table gpus0 (num_gpus task) = true →
                        Slots.count_free gpus0 >= num_gpus task) rest →
    ∃ world1 log1,
      run r h tasks (each_in_turn gpus0 (length pre) rest codes)
        (State gpus0 (pre ++ replicate (length rest) Queued) world0 log0)
      = Some (State gpus0 (pre ++ zip_with (turn_worker gpus0) rest codes) world1 log1).
Proof.
  intros Hmax Hrange rest.
  induction rest as [|task rest IH];
    intros codes before pre world0 log0 Htasks Hlen Hcodes Hpre Hserve.
  - destruct codes; [|done]. simpl. eauto.
  - destruct codes as [|code codes]; [done|].
    apply Forall_cons in Hserve as [Hfree Hserve].
    assert (tasks !! length pre = Some task) as Htask.
    { subst tasks. by apply list_lookup_middle. }
    assert (forallb started (take (length pre)
              (pre ++ Queued :: replicate (length rest) Queued)) = true) as Hfifo.
    { rewrite take_app_length. by apply forallb_started_settled. }
    assert (in_flight (pre ++ Queued :: replicate (length rest) Queued)
            < max_num_workers r) as Hfree_thread.
    { change (Queued :: replicate (length rest) Queued)
        with (replicate (S (length rest)) Queued).
      by rewrite in_flight_settled. }
    cbn [each_in_turn length replicate zip_with]. unfold turn_worker at 1.
    destruct (Slots.fits_table gpus0 (num_gpus task)) eqn:Hfits.
    + specialize (Hfree eq_refl).
      destruct (Slots.try_acquire gpus0 (num_gpus task)) as [[gpu_ids gpus1]|] eqn:Hacq;
        [|unfold Slots.try_acquire in Hacq; by rewrite bool_decide_eq_true_2 in Hacq].
      destruct (_launch_env_exit (getpid h) code task gpu_ids (length pre) world0)
        as [world1 Hlaunch].
      cbn [app].
      erewrite run_cons_transition; cycle 1.
      { eapply T_enter; cbn [workers gpus]; [done| |done|done|done].
        by apply list_lookup_middle. }
      cbn [workers gpus world log]. rewrite insert_middle by done.
      erewrite run_cons_transition; cycle 1.
      { eapply T_grant; cbn [workers gpus]; [done| |done]. by apply list_lookup_middle. }
      cbn [workers gpus world log]. rewrite insert_middle by done.
      erewrite run_cons_transition; cycle 1.
      { eapply T_launched; cbn [workers gpus world]; [done| |done].
        by apply list_lookup_middle. }
      cbn [workers gpus world log]. rewrite insert_middle by done.
      erewrite run_cons_transition; cycle 1.
      { eapply T_release; cbn [workers]. by apply list_lookup_middle. }
      cbn [workers gpus world log]. rewrite insert_middle by done.
      rewrite (release_try_acquire _ _ _ _ Hrange Hacq).
      rewrite (cons_middle (Done _)), app_assoc.
      replace (S (length pre)) with (length (pre ++ [Done (name task, code)]))
        by (rewrite length_app; simpl; lia).
      edestruct (IH codes (before ++ [task]) (pre ++ [Done (name task, code)]))
        as (world2 & log2 & Hrun).
      * by rewrite <- app_assoc.
      * rewrite !length_app. simpl. lia.
      * simpl in Hcodes. lia.
      * apply Forall_app. split; [done|]. by constructor.
      * done.
      * exists world2, log2. rewrite Hrun. f_equal. f_equal.
        rewrite <- app_assoc. done.
    + cbn [app].
      erewrite run_cons_transition; cycle 1.
      { eapply T_reject; cbn [workers gpus]; [done| |done|done|done].
        by apply list_lookup_middle. }
      cbn [workers gpus world log]. rewrite insert_middle by done.
      rewrite (cons_middle Rejected), app_assoc.
      replace (S (length pre)) with (length (pre ++ [Rejected]))
        by (rewrite length_app; simpl; lia).
      edestruct (IH codes (before ++ [task]) (pre ++ [Rejected]))
        as (world2 & log2 & Hrun).
      * by rewrite <- app_assoc.
      * rewrite !length_app. simpl. lia.
      * simpl in Hcodes. lia.
      * apply Forall_app. split; [done|]. by constructor.
      * done.
      * exists world2, log2. rewrite Hrun. f_equal. f_equal.
        rewrite <- app_assoc. done.
Qed.

End PoolFacts.

(** ** Files and traces *)

Module FilesFacts.
Import Exec Inv More ExecFacts DebugFacts IdsFacts.

Lemma elem_of_del_file q p fs : q ∈ del_file p fs ↔ q ≠ p ∧ q ∈ fs.
Proof. unfold del_file. by rewrite list_elem_of_filter. Qed.

Lemma del_file_add_file p fs : del_file p (add_file p fs) = del_file p fs.
Proof.
  unfold add_file. case_bool_decide; [done|].
  unfold del_file. rewrite filter_cons. by rewrite decide_False by (by intros []).
Qed.

Lemma del_file_idemp p fs : del_file p (del_file p fs) = del_file p fs.
Proof.
  unfold del_file. induction fs as [|q fs IH]; [done|].
  rewrite !filter_cons. destruct (decide (q ≠ p)) as [Hq|Hq]; [|done].
  rewrite filter_cons, decide_True by done. by rewrite IH.
Qed.

(** [_launch] leaves every file but its config file and its log as it
    was. *)
Lemma _launch_frame pid env task gpu_ids index w q :
  q ≠ param_file_of pid index →
  q ≠ get_log_path task "out" →
  q ∈ files (_launch pid env task gpu_ids index w).2 ↔ q ∈ files w.
Proof.
  intros Hp Hout. rewrite _launch_eq. cbv zeta.
  assert (q ∈ setup_files pid task index (files w) ↔ q ∈ files w) as Hsetup.
  { unfold setup_files. rewrite !elem_of_add_file. intuition congruence. }
  destruct (subprocess_run env _) as [code|e]; [|done].
  destruct (os_remove_fails env _); cbn [snd files]; [done|].
  rewrite elem_of_del_file. intuition.
Qed.

(** One round of the loop of debug mode, case by case. *)
Lemma debug_one_eq pid env task w :
  DebugMode.debug_one pid env task w =
  let p := DebugMode.param_file_of pid in
  let w1 := World (add_file p (files w)) (trace w ++ debug_attempt pid task) in
  match debug_failure pid env task with
  | Some e => (Raise e, w1)
  | None => (Ok (name task, 0),
             World (del_file p (files w)) (trace w ++ debug_effects pid task))
  end.
Proof.
  destruct w as [fs tr].
  unfold DebugMode.debug_one, DebugMode.run_in_process, run_subprocess, os_remove,
    mkdir_or_exist, dump, emit, bind, ret, raise,
    debug_failure, debug_run_result, debug_effects, debug_attempt, debug_run_event,
    debug_command.
  cbn [files trace].
  destruct (Str.startswith _ _).
  - destruct (task_run env _) as [[]|e];
      [destruct (os_remove_fails env _)|]; cbn;
      rewrite <- ?app_assoc; try done.
    f_equal. f_equal. apply del_file_add_file.
  - destruct (subprocess_run env _) as [code|e];
      [destruct (os_remove_fails env _)|]; cbn;
      rewrite <- ?app_assoc; try done.
    f_equal. f_equal. apply del_file_add_file.
Qed.

Lemma calm_no_failure pid env task :
  DebugMode.calm pid env task = true ↔ debug_failure pid env task = None.
Proof.
  unfold DebugMode.calm, debug_failure, debug_run_result, debug_command.
  destruct (Str.startswith _ _).
  - destruct (task_run env _); destruct (os_remove_fails env _); simpl;
      split; congruence.
  - destruct (subprocess_run env _); destruct (os_remove_fails env _); simpl;
      split; congruence.
Qed.

Lemma after_debug_cons pid task tasks w :
  after_debug pid tasks
    (World (del_file (DebugMode.param_file_of pid) (files w))
       (trace w ++ debug_effects pid task))
  = after_debug pid (task :: tasks) w.
Proof.
  unfold after_debug. cbn [files trace flat_map].
  rewrite (bool_decide_eq_false_2 (task :: tasks = [])) by done.
  rewrite <- app_assoc. f_equal.
  case_bool_decide; [done|apply del_file_idemp].
Qed.

Lemma launch_loop_app_calm pid env pre rest status w :
  forallb (DebugMode.calm pid env) pre = true →
  DebugMode.launch_loop pid env (pre ++ rest) status w =
  DebugMode.launch_loop pid env rest (status ++ DebugMode.all_zero pre)
    (after_debug pid pre w).
Proof.
  revert status w. induction pre as [|task pre IH]; intros status w; simpl.
  - intros _. rewrite app_nil_r. destruct w. unfold after_debug. simpl.
    by rewrite app_nil_r.
  - intros [Hc Hcs]%andb_true_iff. apply calm_no_failure in Hc.
    unfold bind at 1. rewrite debug_one_eq. cbv zeta. rewrite Hc.
    rewrite IH by done. rewrite after_debug_cons.
    by rewrite <- app_assoc.
Qed.

End FilesFacts.

(** ** Bringing a batch to its end from any state *)

Module Completion.
Import Exec Sched Inv More SlotsFacts SchedFacts ExecFacts RunFacts Sequential PoolFacts.

Lemma in_order_initial r h tasks : in_order (workers (initial r h tasks)).
Proof.
  intros i j wj _ Hj Hwj. unfold initial in Hj. cbn [workers] in Hj.
  apply lookup_replicate in Hj as [-> _]. done.
Qed.

Lemma in_order_reachable r h tasks s :
  reachable r h tasks s → in_order (workers s).
Proof.
  revert s. apply (reachable_invariant r h tasks (fun s => in_order (workers s))).
  - apply in_order_initial.
  - intros a s1 s2. apply in_order_step.
Qed.

Lemma in_order_tail w ws : in_order (w :: ws) → in_order ws.
Proof.
  intros Hws i j wj Hij Hj Hwj.
  destruct (Hws (S i) (S j) wj ltac:(lia) Hj Hwj) as (wi & Hi & ?). eauto.
Qed.

Lemma in_order_app_r pre ws : in_order (pre ++ ws) → in_order ws.
Proof. induction pre as [|w pre IH]; [done|]. intros H%in_order_tail. by apply IH. Qed.

Lemma in_order_Queued_head ws :
  in_order (Queued :: ws) → Forall (fun w => w = Queued) ws.
Proof.
  intros Hws. apply Forall_lookup. intros j w Hj.
  destruct w; try done;
    by destruct (Hws 0%nat (S j) _ ltac:(lia) Hj eq_refl) as (wi & [= <-] & ?).
Qed.

Lemma in_flight_app ws1 ws2 :
  in_flight (ws1 ++ ws2) = in_flight ws1 + in_flight ws2.
Proof. unfold in_flight. rewrite filter_app, length_app. lia. Qed.

Lemma in_flight_none ws :
  Forall (fun w => busy w = false) ws → in_flight ws = 0.
Proof.
  unfold in_flight. induction 1 as [|w ws Hw _ IH]; [done|].
  rewrite filter_cons, Hw. simpl. done.
Qed.

(** Servable tasks are never refused. *)
Lemma never_rejected r h tasks s :
  Forall (servable (gpus (initial r h tasks))) tasks →
  reachable r h tasks s →
  length (gpus s) = length (gpus (initial r h tasks)) ∧
  ∀ i, workers s !! i ≠ Some Rejected.
Proof.
  intros Hserve. revert s.
  apply (reachable_invariant r h tasks
    (fun s => length (gpus s) = length (gpus (initial r h tasks)) ∧
              ∀ i, workers s !! i ≠ Some Rejected)).
  - split; [done|]. intros i Hi. unfold initial in Hi. cbn [workers] in Hi.
    by apply lookup_replicate in Hi as [? _].
  - intros a s1 s2 [Hlen Hno] Htr.
    destruct Htr as [k ? ? ? Hk|k task ? Ht Hk ? ? Hfits|k ? ? ? g' ? ? Hk Hacq|k ? ? ? ? Hk
                    |k ? ? ? ? ? ? ? Hk|k ? ? ? ? ? ? ? Hk|k ? ? ? Hk];
      cbn [gpus workers].
    2: { exfalso. rewrite Forall_forall in Hserve.
         destruct (Hserve task) as [Hadm _].
         { by eapply list_elem_of_lookup_2. }
         unfold Slots.fits_table in *. rewrite Hlen in Hfits. congruence. }
    all: split;
      [first [done
             |unfold Slots.release; by rewrite length_add_at
             |apply try_acquire_Some in Hacq as (_ & _ & ->); by rewrite length_add_at]
      |intros i; destruct (decide (i = k)) as [->|Hne];
       [rewrite list_lookup_insert_eq by (by eapply lookup_lt_Some); done
       |rewrite list_lookup_insert_ne by done; apply Hno]].
Qed.

Lemma length_gpus_eq r h tasks s :
  reachable r h tasks s → length (gpus s) = length (gpus (initial r h tasks)).
Proof.
  revert s.
  apply (reachable_invariant r h tasks
           (fun s => length (gpus s) = length (gpus (initial r h tasks)))); [done|].
  intros a s1 s2 H1 Htr. rewrite <- H1.
  destruct Htr; cbn [gpus]; try done.
  - match goal with H : Slots.try_acquire _ _ = _ |- _ =>
      apply try_acquire_Some in H as (_ & _ & ->) end.
    apply length_add_at.
  - apply length_add_at.
Qed.

(** With no id held the table is as it was built. *)
Lemma gpus_initial_when_unheld r h tasks s :
  0 <= max_workers_per_gpu r < Slots.uint_modulus →
  reachable r h tasks s →
  Forall (fun w => held w = []) (workers s) →
  gpus s = gpus (initial r h tasks).
Proof.
  intros Hm Hreach Hfree.
  assert (∀ g, holders (workers s) g = 0) as Hnone.
  { intros g. unfold holders. induction Hfree as [|w ws Hw _ IH]; [done|].
    rewrite filter_cons. rewrite decide_False by (rewrite Hw; apply not_elem_of_nil).
    done. }
  pose proof (length_gpus_eq r h tasks s Hreach) as Hlen.
  apply list_eq; intros g.
  pose proof (slot_inv_reachable r h tasks s Hm Hreach g) as Hs.
  pose proof (slot_inv_initial r h tasks Hm g) as H0.
  rewrite Hnone in Hs.
  assert (holders (workers (initial r h tasks)) g = 0) as H00
    by apply holders_replicate_Queued.
  rewrite H00 in H0.
  destruct (gpus s !! g) as [x|] eqn:Hx.
  - destruct (gpus (initial r h tasks) !! g) as [x0|] eqn:Hx0.
    + f_equal. lia.
    + apply lookup_lt_Some in Hx. apply lookup_ge_None in Hx0. lia.
  - destruct (gpus (initial r h tasks) !! g) as [x0|] eqn:Hx0; [|done].
    apply lookup_lt_Some in Hx0. apply lookup_ge_None in Hx. lia.
Qed.

(** The first pass. *)
Lemma drain_pass r h tasks :
  ∀ post pre gpus1 world1 log1,
    length (pre ++ post) = length tasks →
    ∃ gpus2 world2 log2 post',
      run r h tasks (pass drain_actions (length pre) post)
        (State gpus1 (pre ++ post) world1 log1)
      = Some (State gpus2 (pre ++ post') world2 log2) ∧
      Forall2 drained post post'.
Proof.
  induction post as [|w post IH]; intros pre gpus1 world1 log1 Hlen.
  - exists gpus1, world1, log1, []. split; [done|constructor].
  - assert (∃ task, tasks !! length pre = Some task) as [task Htask].
    { apply lookup_lt_is_Some_2. rewrite <- Hlen, length_app. simpl. lia. }
    assert (∀ w' gpus' world' log',
              drained w w' →
              ∃ gpus2 world2 log2 post',
                run r h tasks (pass drain_actions (S (length pre)) post)
                  (State gpus' (pre ++ w' :: post) world' log')
                = Some (State gpus2 (pre ++ post') world2 log2) ∧
                Forall2 drained (w :: post) post') as Hnext.
    { intros w' gpus' world' log' Hw'.
      rewrite (cons_middle w'), app_assoc.
      replace (S (length pre)) with (length (pre ++ [w']))
        by (rewrite length_app; simpl; lia).
      destruct (IH (pre ++ [w']) gpus' world' log')
        as (gpus2 & world2 & log2 & post' & Hrun & Hpost).
      { rewrite <- app_assoc. simpl. rewrite <- Hlen, !length_app. simpl. lia. }
      exists gpus2, world2, log2, (w' :: post').
      rewrite Hrun, <- app_assoc. split; [done|]. by constructor. }
    cbn [pass]. destruct w as [| |gpu_ids|gpu_ids res| | |]; cbn [drain_actions app];
      try (by apply Hnext).
    + destruct (_launch_env_exit (getpid h) 0 task gpu_ids (length pre) world1)
        as [world' Hlaunch].
      erewrite run_cons_transition; cycle 1.
      { eapply T_launched; cbn [workers gpus world]; [done| |done].
        by apply list_lookup_middle. }
      cbn [workers gpus world log]. rewrite insert_middle by done.
      erewrite run_cons_transition; cycle 1.
      { eapply T_release; cbn [workers]. by apply list_lookup_middle. }
      cbn [workers gpus world log]. rewrite insert_middle by done.
      by apply Hnext.
    + erewrite run_cons_transition; cycle 1.
      { eapply T_release; cbn [workers]. by apply list_lookup_middle. }
      cbn [workers gpus world log]. rewrite insert_middle by done.
      by apply Hnext.
Qed.

(** The second pass. *)
Lemma finish_pass r h tasks gpus0 :
  0 < max_num_workers r →
  (∀ g x, gpus0 !! g = Some x → 0 <= x < Slots.uint_modulus) →
  Forall (servable gpus0) tasks →
  ∀ post pre world1 log1,
    length (pre ++ post) = length tasks →
    Forall (fun w => is_done w = true) pre →
    Forall (fun w => idle w = true) post →
    in_order post →
    ∃ world2 log2 post',
      run r h tasks (pass finish_actions (length pre) post)
        (State gpus0 (pre ++ post) world1 log1)
      = Some (State gpus0 (pre ++ post') world2 log2) ∧
      length post' = length post ∧
      Forall (fun w => is_done w = true) post'.
Proof.
  intros Hmax Hrange Hserve.
  induction post as [|w post IH]; intros pre world1 log1 Hlen Hpre Hpost Hord.
  - exists world1, log1, []. split; [done|]. split; [done|constructor].
  - assert (∃ task, tasks !! length pre = Some task) as [task Htask].
    { apply lookup_lt_is_Some_2. rewrite <- Hlen, length_app. simpl. lia. }
    assert (servable gpus0 task) as [Hfits Hfree].
    { rewrite Forall_forall in Hserve. apply Hserve.
      by eapply list_elem_of_lookup_2. }
    apply Forall_cons in Hpost as [Hw Hpost].
    assert (∀ res world' log',
              ∃ world2 log2 post',
                run r h tasks (pass finish_actions (S (length pre)) post)
                  (State gpus0 (pre ++ Done res :: post) world' log')
                = Some (State gpus0 (pre ++ post') world2 log2) ∧
                length post' = length (w :: post) ∧
                Forall (fun w => is_done w = true) post') as Hnext.
    { intros res world' log'.
      rewrite (cons_middle (Done res)), app_assoc.
      replace (S (length pre)) with (length (pre ++ [Done res]))
        by (rewrite length_app; simpl; lia).
      destruct (IH (pre ++ [Done res]) world' log')
        as (world2 & log2 & post' & Hrun & Hlen' & Hdone).
      { rewrite <- app_assoc. simpl. rewrite <- Hlen, !length_app. simpl. lia. }
      { apply Forall_app. split; [done|]. by constructor. }
      { done. }
      { by eapply in_order_tail. }
      exists world2, log2, (Done res :: post').
      rewrite Hrun, <- app_assoc. split; [done|].
      split; [simpl; lia|]. by constructor. }
    destruct (Slots.try_acquire gpus0 (num_gpus task)) as [[gpu_ids gpus1]|] eqn:Hacq;
      [|unfold Slots.try_acquire in Hacq; by rewrite bool_decide_eq_true_2 in Hacq].
    assert (∀ sleeps world' log',
              ∃ world2 log2 post',
                run r h tasks
                  ([Poll (length pre); Launch (length pre) (env_exit 0);
                    Release (length pre)]
                   ++ pass finish_actions (S (length pre)) post)
                  (State gpus0 (pre ++ Polling sleeps :: post) world' log')
                = Some (State gpus0 (pre ++ post') world2 log2) ∧
                length post' = length (w :: post) ∧
                Forall (fun w => is_done w = true) post') as Hserve_one.
    { intros sleeps world' log'.
      destruct (_launch_env_exit (getpid h) 0 task gpu_ids (length pre) world')
        as [world'' Hlaunch].
      cbn [app].
      erewrite run_cons_transition; cycle 1.
      { eapply T_grant; cbn [workers gpus]; [done| |done]. by apply list_lookup_middle. }
      cbn [workers gpus world log]. rewrite insert_middle by done.
      erewrite run_cons_transition; cycle 1.
      { eapply T_launched; cbn [workers gpus world]; [done| |done].
        by apply list_lookup_middle. }
      cbn [workers gpus world log]. rewrite insert_middle by done.
      erewrite run_cons_transition; cycle 1.
      { eapply T_release; cbn [workers]. by apply list_lookup_middle. }
      cbn [workers gpus world log]. rewrite insert_middle by done.
      rewrite (release_try_acquire _ _ _ _ Hrange Hacq).
      apply Hnext. }
    cbn [pass]. destruct w as [|sleeps| | |res| |]; try done; cbn [finish_actions];
      try apply Hserve_one; try (cbn [app]; apply Hnext).
    (* a queued task: every later one is queued too, so a thread is free *)
    { pose proof (in_order_Queued_head _ Hord) as Hqueued.
      change ([Start (length pre); Poll (length pre); Launch (length pre) (env_exit 0);
               Release (length pre)] ++ pass finish_actions (S (length pre)) post)
        with (Start (length pre) ::
              ([Poll (length pre); Launch (length pre) (env_exit 0);
                Release (length pre)] ++ pass finish_actions (S (length pre)) post)).
      erewrite run_cons_transition; cycle 1.
      { eapply T_enter; cbn [workers gpus]; [done| | | |done].
        - by apply list_lookup_middle.
        - rewrite take_app_length. clear -Hpre.
          induction Hpre as [|w0 pre Hw0 _ IH]; [done|]. simpl. rewrite IH. by destruct w0.
        - rewrite in_flight_app, (in_flight_none pre), (in_flight_none (Queued :: post)).
          + lia.
          + constructor; [done|]. eapply Forall_impl; [exact Hqueued|]. by intros ? ->.
          + eapply Forall_impl; [exact Hpre|]. by intros [].  }
      cbn [workers gpus world log]. rewrite insert_middle by done.
      apply Hserve_one. }
Qed.

Lemma pass_finish_drained ws ws' i :
  Forall2 drained ws ws' → pass finish_actions i ws = pass finish_actions i ws'.
Proof.
  intros H. revert i. induction H as [|w w' ws ws' Hw _ IH]; intros i; [done|].
  cbn [pass]. rewrite IH. f_equal.
  destruct w; simpl in Hw; subst; try done; by destruct w'.
Qed.

Lemma idle_after_drain ws ws' :
  Forall2 drained ws ws' →
  (∀ i, ws' !! i ≠ Some Rejected) →
  (∀ i e gpu_ids, ws !! i ≠ Some (Crashed e gpu_ids)) →
  Forall (fun w => idle w = true) ws'.
Proof.
  intros H. induction H as [|w w' ws ws' Hw _ IH]; intros Hrej Hcrash; [constructor|].
  constructor.
  - specialize (Hrej 0%nat). specialize (Hcrash 0%nat). simpl in *.
    destruct w; simpl in Hw; subst; try done.
    + by destruct w'.
    + by destruct w'.
    + by destruct (Hcrash e gpu_ids).
  - apply IH; [intros i; apply (Hrej (S i))|intros i; apply (Hcrash (S i))].
Qed.

Lemma run_completion r h tasks s :
  0 < max_num_workers r →
  0 <= max_workers_per_gpu r < Slots.uint_modulus →
  Forall (servable (gpus (initial r h tasks))) tasks →
  reachable r h tasks s →
  (∀ i e gpu_ids, workers s !! i ≠ Some (Crashed e gpu_ids)) →
  ∃ s', run r h tasks (completion (workers s)) s = Some s' ∧
        Forall (fun w => is_done w = true) (workers s') ∧
        gpus s' = gpus (initial r h tasks).
Proof.
  intros Hmax Hm Hserve Hreach Hcrash.
  pose proof (length_workers_reachable r h tasks s Hreach) as Hlen.
  destruct (drain_pass r h tasks (workers s) [] (gpus s) (world s) (log s) Hlen)
    as (gpus1 & world1 & log1 & ws1 & Hrun1 & Hdrained).
  assert (State (gpus s) ([] ++ workers s) (world s) (log s) = s) as Hs by (by destruct s).
  rewrite Hs in Hrun1. change (length (@nil worker)) with 0%nat in Hrun1.
  cbn [app] in Hrun1.
  set (s1 := State gpus1 ws1 world1 log1) in *.
  pose proof (reachable_run _ _ _ _ _ _ Hreach Hrun1) as Hreach1.
  destruct (never_rejected r h tasks s1 Hserve Hreach1) as [_ Hrej].
  pose proof (idle_after_drain _ _ Hdrained Hrej Hcrash) as Hidle.
  assert (gpus1 = gpus (initial r h tasks)) as ->.
  { apply (gpus_initial_when_unheld r h tasks s1 Hm Hreach1).
    eapply Forall_impl; [exact Hidle|]. by intros []. }
  destruct (finish_pass r h tasks (gpus (initial r h tasks)) Hmax
              ltac:(intros g x; apply init_gpus_range) Hserve
              ws1 [] world1 log1) as (world2 & log2 & ws2 & Hrun2 & _ & Hdone).
  { simpl. rewrite <- Hlen. symmetry. by eapply Forall2_length. }
  { constructor. }
  { done. }
  { apply (in_order_reachable r h tasks s1 Hreach1). }
  change (length (@nil worker)) with 0%nat in Hrun2. cbn [app] in Hrun2.
  eexists. split.
  - unfold completion. rewrite run_app, Hrun1. cbn [mbind option_bind].
    rewrite (pass_finish_drained _ _ 0 Hdrained). exact Hrun2.
  - done.
Qed.

End Completion.

(** * What a batch reports *)

Module Outcomes.
Import Exec Sched Inv Stated Scenario More.
Import SlotsFacts SchedFacts ExecFacts LedgerFacts RunFacts Sequential DebugFacts.
Import FilesFacts Completion.

(** ** The results of a run that is over *)




(** ** Debug mode returns exactly when nothing raises *)




(** ** The step that runs [_launch] *)


Lemma _launch_trace pid env task gpu_ids index w :
  ∃ tail,
    trace (_launch pid env task gpu_ids index w).2 =
      trace w ++ setup_effects pid task gpu_ids index ++ tail ∧
    Forall (fun ev => is_spawn ev = false) tail.
Proof.
  rewrite _launch_eq. cbv zeta.
  destruct (subprocess_run env _) as [code|e].
  - assert (Forall (fun ev => is_spawn ev = false) (warning_effects task code)) as Hw.
    { unfold warning_effects. case_bool_decide; repeat constructor. }
    destruct (os_remove_fails env _); cbn [snd trace].
    + exists (warning_effects task code). by rewrite <- app_assoc.
    + exists (warning_effects task code ++ [Remove (param_file_of pid index)]).
      rewrite <- app_assoc. split; [done|].
      apply Forall_app. split; [done|]. by repeat constructor.
  - exists []. cbn [snd trace]. by rewrite app_nil_r.
Qed.

Lemma spawn_of_setup pid task gpu_ids index cmd out :
  In (Spawn cmd out) (setup_effects pid task gpu_ids index) →
  cmd = launch_command pid task gpu_ids index ∧ out = Some (get_log_path task "out").
Proof.
  unfold setup_effects. simpl.
  intros Hin.
  repeat (destruct Hin as [H|Hin];
          [first [discriminate H | by injection H as <- <-]|]).
  done.
Qed.

Lemma spawn_in_setup pid task gpu_ids index :
  In (Spawn (get_command task (param_file_of pid index) (launch_template gpu_ids))
        (Some (get_log_path task "out")))
     (setup_effects pid task gpu_ids index).
Proof. unfold setup_effects, launch_command. simpl. auto 10. Qed.

Lemma spawn_not_in_tail tail cmd out :
  Forall (fun ev => is_spawn ev = false) tail → ¬ In (Spawn cmd out) tail.
Proof.
  rewrite Forall_forall. intros H Hin%list_elem_of_In. by specialize (H _ Hin).
Qed.

(** ** The ids of a grant reach the child *)

(** What a step adds to the log, and the only way a grant gets there. *)
Lemma log_grows r h tasks a s s' :
  transition r h tasks a s s' →
  ∃ more, log s' = log s ++ more ∧
    ∀ j gpu_ids, In (EvAcquire j gpu_ids) more →
      ∃ task gpus', tasks !! j = Some task ∧
        Slots.try_acquire (gpus s) (num_gpus task) = Some (gpu_ids, gpus').
Proof.
  destruct 1 as [i ? ? ? Hi|i ? ? ? Hi|i task sl ids g' ? Ht Hi Hacq|i ? ? ? ? Hi
                |i ? ? ? ? ? ? ? Hi|i ? ? ? ? ? ? ? Hi|i ? ? ? Hi];
    cbn [log].
  - exists []. by rewrite app_nil_r.
  - exists []. by rewrite app_nil_r.
  - eexists. split; [done|]. intros j ids0 [Hev|[Hev|[]]]; [|done].
    injection Hev as <- <-. eauto.
  - eexists. split; [done|]. by intros j ids0 [Hev|[]].
  - eexists. split; [done|]. by intros j ids0 [Hev|[]].
  - exists []. by rewrite app_nil_r.
  - eexists. split; [done|]. by intros j ids0 [Hev|[]].
Qed.

Lemma granted_step r h tasks a s s' j w' gpu_ids :
  transition r h tasks a s s' →
  workers s' !! j = Some w' → granted_ids w' = Some gpu_ids →
  (∃ w, workers s !! j = Some w ∧ granted_ids w = Some gpu_ids) ∨
  In (EvAcquire j gpu_ids) (log s').
Proof.
  intros Htr.
  destruct Htr as [i ? ? ? Hi|i ? ? ? Hi|i ? ? ? ? ? ? Hi|i ? ? ? ? Hi
                  |i ? ? ? ? ? ? ? Hi|i ? ? ? ? ? ? ? Hi|i ? ? ? Hi];
    cbn [workers log];
    (destruct (decide (j = i)) as [->|Hne];
     [rewrite list_lookup_insert_eq by (by eapply lookup_lt_Some);
      intros [= <-]; cbn [granted_ids]; try done;
      intros [= <-];
      first [left; by eauto | right; apply in_or_app; right; by left]
     |rewrite list_lookup_insert_ne by done; intros Hj Hg; left; eauto]).
Qed.

Lemma world_step r h tasks a s s' :
  transition r h tasks a s s' →
  world s' = world s ∨
  ∃ i env task gpu_ids,
    tasks !! i = Some task ∧
    workers s !! i = Some (Running gpu_ids) ∧
    world s' = (_launch (getpid h) env task gpu_ids i (world s)).2.
Proof.
  destruct 1 as [i ? ? ? Hi|i ? ? ? Hi|i ? ? ? ? ? ? Hi|i ? ? ? ? Hi
                |i env task ids res w1 ? Ht Hi Hl|i env task ids e w1 ? Ht Hi Hl
                |i ? ? ? Hi];
    cbn [world]; try (by left);
    right; exists i, env, task, ids; by rewrite Hl.
Qed.

Lemma try_acquire_grant_fits gpus task gpu_ids gpus' :
  Slots.try_acquire gpus (num_gpus task) = Some (gpu_ids, gpus') →
  grant_fits task gpu_ids.
Proof.
  intros Hacq. split.
  - intros H0. rewrite H0, try_acquire_0 in Hacq. by injection Hacq as <- <-.
  - intros Hpos. split.
    + eapply try_acquire_length; [lia|done].
    + by eapply try_acquire_NoDup.
Qed.

Lemma bound_step r h tasks a s s' :
  grants_recorded tasks s ∧ children_bound h tasks s →
  transition r h tasks a s s' →
  grants_recorded tasks s' ∧ children_bound h tasks s'.
Proof.
  intros [[Hheld Hfits] Hchildren] Htr.
  destruct (log_grows _ _ _ _ _ _ Htr) as (more & Hlog & Hmore).
  assert (∀ j gpu_ids, In (EvAcquire j gpu_ids) (log s) →
                       In (EvAcquire j gpu_ids) (log s')) as Hkeep.
  { intros j gpu_ids Hin. rewrite Hlog. apply in_or_app. by left. }
  split; [split|].
  - intros j w' gpu_ids Hj Hg.
    destruct (granted_step _ _ _ _ _ _ _ _ _ Htr Hj Hg) as [(w & Hw & Hgw)|Hin]; [|done].
    apply Hkeep. by eapply Hheld.
  - intros j gpu_ids Hin. rewrite Hlog in Hin.
    apply in_app_or in Hin as [Hin|Hin]; [by apply Hfits|].
    destruct (Hmore _ _ Hin) as (task & gpus' & Ht & Hacq).
    exists task. split; [done|]. by eapply try_acquire_grant_fits.
  - intros cmd out Hin.
    assert (In (Spawn cmd out) (trace (world s)) →
            ∃ i task gpu_ids,
              tasks !! i = Some task ∧ In (EvAcquire i gpu_ids) (log s') ∧
              cmd = get_command task (param_file_of (getpid h) i) (launch_template gpu_ids) ∧
              out = Some (get_log_path task "out")) as Hold.
    { intros (i & task & gpu_ids & Ht & Hacq & Hcmd & Hout)%Hchildren.
      exists i, task, gpu_ids. auto. }
    destruct (world_step _ _ _ _ _ _ Htr)
      as [Hw|(i & env & task & gpu_ids & Ht & Hi & Hw)];
      rewrite Hw in Hin; [by apply Hold|].
    destruct (_launch_trace (getpid h) env task gpu_ids i (world s))
      as (tail & Htrace & Htail).
    rewrite Htrace in Hin.
    apply in_app_or in Hin as [Hin|Hin]; [by apply Hold|].
    apply in_app_or in Hin as [Hin|Hin]; [|by destruct (spawn_not_in_tail _ _ _ Htail Hin)].
    apply spawn_of_setup in Hin as [-> ->].
    exists i, task, gpu_ids. split; [done|]. split; [|done].
    apply Hkeep. by eapply Hheld.
Qed.

Lemma bound_reachable r h tasks s :
  reachable r h tasks s → grants_recorded tasks s ∧ children_bound h tasks s.
Proof.
  revert s.
  apply (reachable_invariant r h tasks
           (fun s => grants_recorded tasks s ∧ children_bound h tasks s)).
  - unfold grants_recorded, children_bound, initial. cbn [workers log world trace].
    split; [split|].
    + by intros i w gpu_ids [-> _]%lookup_replicate.
    + by intros i gpu_ids [].
    + by intros cmd out [].
  - intros a s1 s2. apply bound_step.
Qed.

Lemma count_In p ev l : In ev l → p ev = true → (1 ≤ count p l)%nat.
Proof.
  induction l as [|x l IH]; [done|]. rewrite count_cons.
  intros [->|Hin] Hp; [rewrite Hp; lia|]. specialize (IH Hin Hp). lia.
Qed.

Lemma acquire_of_same i gpu_ids : acquire_of i (EvAcquire i gpu_ids) = true.
Proof. simpl. by rewrite bool_decide_eq_true_2. Qed.

Lemma acquire_unique l i a b :
  (count (acquire_of i) l ≤ 1)%nat →
  In (EvAcquire i a) l → In (EvAcquire i b) l → a = b.
Proof.
  induction l as [|x l IH]; [done|]. rewrite count_cons.
  intros Hc [->|Ha] [Hb|Hb].
  - by injection Hb.
  - pose proof (count_In _ _ _ Hb (acquire_of_same i b)).
    rewrite acquire_of_same in Hc. lia.
  - subst x. pose proof (count_In _ _ _ Ha (acquire_of_same i a)).
    rewrite acquire_of_same in Hc. lia.
  - apply IH; [destruct (acquire_of i x); lia|done|done].
Qed.

Lemma grant_unique r h tasks s i a b :
  reachable r h tasks s →
  In (EvAcquire i a) (log s) → In (EvAcquire i b) (log s) → a = b.
Proof.
  intros Hreach Ha Hb.
  destruct (bound_reachable _ _ _ _ Hreach) as [[_ Hfits] _].
  destruct (Hfits _ _ Ha) as (task & Ht & _).
  assert (is_Some (workers s !! i)) as [w Hw].
  { apply lookup_lt_is_Some. rewrite (length_workers_reachable _ _ _ _ Hreach).
    by eapply lookup_lt_Some. }
  destruct (ledger_inv_reachable _ _ _ _ Hreach) as (Hper & _).
  destruct (Hper _ _ Hw) as [Hcount _].
  eapply (acquire_unique (log s) i); [|done|done].
  rewrite Hcount. destruct (acquired w); lia.
Qed.

(** ** The claims about the outcomes *)







(** C8 (amended).  In every state a run can reach: a poll that succeeds
    hands the worker ids that had free capacity and records the grant; the
    step of a worker that runs [_launch] passes it the ids of the grant of
    that worker, and the one child it starts runs the command resolved from
    the template that sets the resource-visibility variable to these ids;
    every child started so far was started that way; and a worker has one
    grant only.  The template always starts with the assignment of the
    variable to the granted ids joined by commas: for a task with demand 0
    no id is granted and the variable is set to the empty string, for a
    task with a positive demand the ids are as many as the demand and
    distinct. *)
Theorem C8_child_bound_to_granted_ids r h tasks s :
  reachable r h tasks s →
  (∀ i task sleeps gpu_ids gpus',
     tasks !! i = Some task →
     workers s !! i = Some (Polling sleeps) →
     Slots.try_acquire (gpus s) (num_gpus task) = Some (gpu_ids, gpus') →
     ∃ s', submit_step r h tasks (Poll i) s = Some s' ∧
           workers s' !! i = Some (Running gpu_ids) ∧
           gpus s' = gpus' ∧
           In (EvAcquire i gpu_ids) (log s') ∧
           ∀ g, g ∈ gpu_ids → ∃ x, gpus s !! g = Some x ∧ x ≠ 0) ∧
  (∀ i task gpu_ids env,
     tasks !! i = Some task →
     workers s !! i = Some (Running gpu_ids) →
     In (EvAcquire i gpu_ids) (log s) ∧
     ∃ s' tail,
       submit_step r h tasks (Launch i env) s = Some s' ∧
       trace (world s') =
         trace (world s) ++ setup_effects (getpid h) task gpu_ids i ++ tail ∧
       Forall (fun ev => is_spawn ev = false) tail ∧
       In (Spawn (get_command task (param_file_of (getpid h) i) (launch_template gpu_ids))
             (Some (get_log_path task "out")))
          (setup_effects (getpid h) task gpu_ids i)) ∧
  (∀ cmd out, In (Spawn cmd out) (trace (world s)) →
     ∃ i task gpu_ids,
       tasks !! i = Some task ∧
       In (EvAcquire i gpu_ids) (log s) ∧
       cmd = get_command task (param_file_of (getpid h) i) (launch_template gpu_ids) ∧
       out = Some (get_log_path task "out")) ∧
  (∀ i gpu_ids, In (EvAcquire i gpu_ids) (log s) →
     (∀ gpu_ids', In (EvAcquire i gpu_ids') (log s) → gpu_ids' = gpu_ids) ∧
     ∃ task,
       tasks !! i = Some task ∧
       sets_visibility (launch_template gpu_ids) = true ∧
       launch_template gpu_ids =
         ("CUDA_VISIBLE_DEVICES=" +:+ Str.join "," (map Str.str gpu_ids)) +:+ " {task_cmd}" ∧
       (num_gpus task = 0 →
        gpu_ids = [] ∧ launch_template gpu_ids = "CUDA_VISIBLE_DEVICES= {task_cmd}") ∧
       (0 < num_gpus task →
        Z.of_nat (length gpu_ids) = num_gpus task ∧ NoDup gpu_ids)).
Proof.
  intros Hreach.
  destruct (bound_reachable _ _ _ _ Hreach) as [[Hheld Hfits] Hchildren].
  split; [|split; [|split]].
  - intros i task sleeps gpu_ids gpus' Ht Hi Hacq.
    simpl. rewrite Ht. simpl. rewrite Hi. simpl. rewrite Hacq.
    eexists. split; [done|]. cbn [workers gpus log].
    split; [apply list_lookup_insert_eq; by eapply lookup_lt_Some|].
    split; [done|]. split; [apply in_or_app; right; by left|].
    intros g. by eapply try_acquire_ids_free.
  - intros i task gpu_ids env Ht Hi.
    split; [by eapply Hheld|].
    destruct (_launch_trace (getpid h) env task gpu_ids i (world s))
      as (tail & Htrace & Htail).
    simpl. rewrite Ht. simpl. rewrite Hi. simpl.
    destruct (_launch (getpid h) env task gpu_ids i (world s)) as [[res|e] w'];
      eexists _, tail; (split; [done|]); cbn [world]; cbn [snd] in Htrace;
      (split; [done|]); (split; [done|]); apply spawn_in_setup.
  - exact Hchildren.
  - intros i gpu_ids Hin. split.
    + intros gpu_ids' Hin'. by eapply grant_unique.
    + destruct (Hfits _ _ Hin) as (task & Ht & H0 & Hpos).
      exists task. split; [done|]. split; [reflexivity|]. split; [reflexivity|].
      split; [|done]. intros Hz. rewrite (H0 Hz). by split.
Qed.

Lemma C8_witness :
  reachable runner two_gpus batch both_held ∧
  In (EvAcquire 1 [1%nat]) (log both_held) ∧
  ∃ s' tail,
    submit_step runner two_gpus batch (Launch 1 (env_exit 0)) both_held = Some s' ∧
    trace (world s') =
      trace (world both_held) ++ setup_effects 4242 (job "b" 1) [1%nat] 1 ++ tail ∧
    Forall (fun ev => is_spawn ev = false) tail ∧
    In (Spawn "CUDA_VISIBLE_DEVICES=1 {task_cmd} tmp/4242_1_params.py"
          (Some "outputs/logs/b.out"))
       (setup_effects 4242 (job "b" 1) [1%nat] 1).
Proof.
  assert (reachable runner two_gpus batch both_held) as Hreach
    by (exists [Start 0; Start 1; Poll 0; Poll 1]; reflexivity).
  split; [exact Hreach|].
  exact (proj1 (proj2 (C8_child_bound_to_granted_ids runner two_gpus batch both_held
                         Hreach))
           1%nat (job "b" 1) [1%nat] (env_exit 0) eq_refl eq_refl).
Defined.




End Outcomes.

(** * Further properties of the runner *)

Module Extra.
Import Exec Sched Inv More Scenario.
Import SlotsFacts SchedFacts ExecFacts LedgerFacts RunFacts Sequential DebugFacts.
Import IdsFacts TableFacts PoolFacts FilesFacts Completion.

(** X1.  The ids written into the resource-visibility variable by line 147
    are read back by the scan of lines 78-81 as the same ids, in the same
    order: a child that discovers its inventory the way [launch] does sees
    exactly the ids it was granted. *)
Theorem X1_granted_ids_read_back gpu_ids device_count :
  Inventory.all_gpu_ids (Some (Str.join "," (map Str.str gpu_ids))) device_count
  = gpu_ids.
Proof. unfold Inventory.all_gpu_ids, Inventory.findall. by apply scan_joined. Qed.

(** X2.  On a value of the variable made of ASCII characters, every match
    of the scan of lines 78-81 is a non-empty string of the digits 0 to
    9. *)
Theorem X2_matches_are_digit_strings v :
  ascii_only v = true →
  Forall (fun m => m ≠ [] ∧ Forall (fun c => Str.is_digit c = true) m)
    (Inventory.findall v).
Proof. intros _. unfold Inventory.findall. by apply findall_from_digits. Qed.

Lemma X2_witness :
  ascii_only "0,-1,12" = true ∧
  Forall (fun m => m ≠ [] ∧ Forall (fun c => Str.is_digit c = true) m)
    (Inventory.findall "0,-1,12").
Proof.
  split; [reflexivity|].
  exact (X2_matches_are_digit_strings "0,-1,12" eq_refl).
Defined.

(** X3.  The name of the temporary config file determines the process id
    and the index of the task, so two workers never share it; and [_launch]
    neither creates nor removes the config file of another task, whatever
    its child does, unless that file is its own log. *)
Theorem X3_config_files_do_not_collide pid env task gpu_ids index w pid' index' :
  (pid', index') ≠ (pid, index) →
  get_log_path task "out" ≠ param_file_of pid' index' →
  param_file_of pid' index' ≠ param_file_of pid index ∧
  (param_file_of pid' index' ∈ files (_launch pid env task gpu_ids index w).2
   ↔ param_file_of pid' index' ∈ files w).
Proof.
  intros Hne Hlog.
  assert (param_file_of pid' index' ≠ param_file_of pid index) as Hp.
  { intros [-> ->]%param_file_of_inj. done. }
  split; [done|]. apply _launch_frame; [done|]. congruence.
Qed.

Lemma X3_witness :
  (4242%nat, 1%nat) ≠ (4242%nat, 0%nat) ∧
  get_log_path (job "a" 1) "out" ≠ param_file_of 4242 1 ∧
  param_file_of 4242 1 ≠ param_file_of 4242 0 ∧
  (param_file_of 4242 1
     ∈ files (_launch 4242 env_spawn_fails (job "a" 1) [0%nat] 0
                (World [param_file_of 4242 1] [])).2
   ↔ param_file_of 4242 1 ∈ files (World [param_file_of 4242 1] [])).
Proof.
  assert ((4242%nat, 1%nat) ≠ (4242%nat, 0%nat)) as Hne by discriminate.
  assert (get_log_path (job "a" 1) "out" ≠ param_file_of 4242 1) as Hlog by discriminate.
  split; [exact Hne|]. split; [exact Hlog|].
  exact (X3_config_files_do_not_collide 4242 env_spawn_fails (job "a" 1) [0%nat] 0
           (World [param_file_of 4242 1] []) 4242 1 Hne Hlog).
Defined.

(** X5.  A grant takes the lowest free ids: the granted ids are strictly
    ascending, and every id with free capacity below a granted id is
    granted too. *)
Theorem X5_lowest_free_ids_first gpus num_gpus gpu_ids gpus' :
  Slots.try_acquire gpus num_gpus = Some (gpu_ids, gpus') →
  ascending gpu_ids ∧
  ∀ g g' x, g ∈ gpu_ids → (g' < g)%nat → gpus !! g' = Some x → x ≠ 0 → g' ∈ gpu_ids.
Proof.
  intros (_ & -> & _)%try_acquire_Some.
  destruct (slice_to_take (Slots.np_where gpus) num_gpus) as [m ->].
  split.
  - apply ascending_take, ascending_where_from.
  - intros g g' x Hg Hlt Hx Hne.
    eapply take_lowest; [apply ascending_where_from|done| |done].
    apply elem_of_np_where. eauto.
Qed.

Lemma X5_witness :
  Slots.try_acquire [1; 0; 1; 1] 2 = Some ([0; 2]%nat, [0; 0; 0; 1]) ∧
  ascending [0; 2]%nat ∧
  ∀ g g' x, g ∈ [0; 2]%nat → (g' < g)%nat → [1; 0; 1; 1] !! g' = Some x → x ≠ 0 →
    g' ∈ [0; 2]%nat.
Proof.
  split; [reflexivity|].
  exact (X5_lowest_free_ids_first [1; 0; 1; 1] 2 [0; 2]%nat [0; 0; 0; 1] eq_refl).
Defined.

(** X6.  In every state a run can reach, giving back the ids of a grant
    right after it restores the table as it was before the grant. *)
Theorem X6_release_restores_table r h tasks s num_gpus gpu_ids gpus' :
  0 <= max_workers_per_gpu r < Slots.uint_modulus →
  reachable r h tasks s →
  Slots.try_acquire (gpus s) num_gpus = Some (gpu_ids, gpus') →
  Slots.release gpus' gpu_ids = gpus s.
Proof.
  intros Hm Hreach Hacq. eapply release_try_acquire; [|done].
  intros g x Hx.
  pose proof (slot_inv_reachable r h tasks s Hm Hreach g) as Hinv.
  rewrite Hx in Hinv.
  pose proof (holders_nonneg (workers s) g).
  pose proof (capacity_bounds r h g Hm). lia.
Qed.

Lemma X6_witness :
  0 <= max_workers_per_gpu runner < Slots.uint_modulus ∧
  reachable runner two_gpus batch (initial runner two_gpus batch) ∧
  Slots.try_acquire (gpus (initial runner two_gpus batch)) 2 = Some ([0; 1]%nat, [0; 0]) ∧
  Slots.release [0; 0] [0; 1]%nat = gpus (initial runner two_gpus batch).
Proof.
  assert (0 <= max_workers_per_gpu runner < Slots.uint_modulus) as Hm
    by (unfold Slots.uint_modulus; simpl; lia).
  assert (reachable runner two_gpus batch (initial runner two_gpus batch)) as Hreach
    by (exists []; reflexivity).
  split; [exact Hm|]. split; [exact Hreach|]. split; [reflexivity|].
  exact (X6_release_restores_table runner two_gpus batch _ 2 [0; 1]%nat [0; 0]
           Hm Hreach eq_refl).
Defined.

(** X7.  With [max_workers_per_gpu = 1], in every state a run can reach no
    two workers hold a claim on the same id. *)
Theorem X7_one_job_per_device r h tasks s i j wi wj g :
  max_workers_per_gpu r = 1 →
  reachable r h tasks s →
  i ≠ j →
  workers s !! i = Some wi →
  workers s !! j = Some wj →
  g ∈ held wi →
  g ∉ held wj.
Proof.
  intros H1 Hreach Hij Hi Hj Hgi Hgj.
  assert (0 <= max_workers_per_gpu r < Slots.uint_modulus) as Hm
    by (rewrite H1; unfold Slots.uint_modulus; lia).
  pose proof (slot_inv_reachable r h tasks s Hm Hreach g) as Hinv.
  assert (2 <= holders (workers s) g) as Htwo.
  { unfold holders.
    pose proof (two_in_filter (fun w => g ∈ held w) (workers s) i j wi wj Hij Hi Hj Hgi Hgj).
    lia. }
  assert (capacity r h g <= 1) as Hcap
    by (unfold capacity; case_bool_decide; lia).
  destruct (gpus s !! g); lia.
Qed.

Lemma X7_witness :
  max_workers_per_gpu runner = 1 ∧
  reachable runner two_gpus batch both_held ∧
  0%nat ≠ 1%nat ∧
  workers both_held !! 0%nat = Some (Running [0%nat]) ∧
  workers both_held !! 1%nat = Some (Running [1%nat]) ∧
  0%nat ∈ held (Running [0%nat]) ∧
  0%nat ∉ held (Running [1%nat]).
Proof.
  assert (reachable runner two_gpus batch both_held) as Hreach
    by (exists [Start 0; Start 1; Poll 0; Poll 1]; reflexivity).
  assert (0%nat ≠ 1%nat) as Hne by discriminate.
  assert (0%nat ∈ held (Running [0%nat])) as Hin by (simpl; left).
  split; [reflexivity|]. split; [exact Hreach|]. split; [exact Hne|].
  split; [reflexivity|]. split; [reflexivity|]. split; [exact Hin|].
  exact (X7_one_job_per_device runner two_gpus batch both_held 0 1
           (Running [0%nat]) (Running [1%nat]) 0%nat eq_refl Hreach Hne eq_refl eq_refl Hin).
Defined.

(** X8.  The ids of a worker whose [_launch] raised are never given back:
    in every later state of the run the worker still holds them and the
    free capacity of each of them stays below its capacity; with
    [max_workers_per_gpu = 1] no later grant contains any of them. *)
Theorem X8_crash_keeps_ids_for_good r h tasks s schedule s' i e gpu_ids g :
  0 <= max_workers_per_gpu r < Slots.uint_modulus →
  reachable r h tasks s →
  workers s !! i = Some (Crashed e gpu_ids) →
  g ∈ gpu_ids →
  run r h tasks schedule s = Some s' →
  workers s' !! i = Some (Crashed e gpu_ids) ∧
  (∀ x, gpus s' !! g = Some x → x <= capacity r h g - 1) ∧
  (max_workers_per_gpu r = 1 →
   ∀ num_gpus gpu_ids' gpus',
     Slots.try_acquire (gpus s') num_gpus = Some (gpu_ids', gpus') → g ∉ gpu_ids').
Proof.
  intros Hm Hreach Hi Hg Hrun.
  pose proof (crashed_stable _ _ _ _ _ _ _ _ _ Hrun Hi) as Hi'.
  pose proof (reachable_run _ _ _ _ _ _ Hreach Hrun) as Hreach'.
  pose proof (slot_inv_reachable r h tasks s' Hm Hreach' g) as Hinv.
  assert (1 <= holders (workers s') g) as Hone.
  { unfold holders.
    pose proof (one_in_filter (fun w => g ∈ held w) (workers s') i _ Hi' Hg). lia. }
  assert (∀ x, gpus s' !! g = Some x → x <= capacity r h g - 1) as Hbelow.
  { intros x Hx. rewrite Hx in Hinv. lia. }
  split; [done|]. split; [done|].
  intros H1 num_gpus gpu_ids' gpus' Hacq Hin.
  destruct (try_acquire_ids_free _ _ _ _ g Hacq Hin) as (x & Hx & Hne).
  specialize (Hbelow x Hx). rewrite Hx in Hinv.
  assert (capacity r h g <= 1) by (unfold capacity; case_bool_decide; lia). lia.
Qed.

Lemma X8_witness :
  0 <= max_workers_per_gpu runner < Slots.uint_modulus ∧
  reachable runner two_gpus [job "a" 1] crashed ∧
  workers crashed !! 0%nat = Some (Crashed OSError [0%nat]) ∧
  0%nat ∈ [0%nat] ∧
  run runner two_gpus [job "a" 1] [] crashed = Some crashed ∧
  (∀ x, gpus crashed !! 0%nat = Some x → x <= capacity runner two_gpus 0 - 1).
Proof.
  assert (0 <= max_workers_per_gpu runner < Slots.uint_modulus) as Hm
    by (unfold Slots.uint_modulus; simpl; lia).
  assert (reachable runner two_gpus [job "a" 1] crashed) as Hreach
    by (exists [Start 0; Poll 0; Launch 0 env_spawn_fails]; reflexivity).
  assert (0%nat ∈ [0%nat]) as Hin by left.
  split; [exact Hm|]. split; [exact Hreach|]. split; [reflexivity|].
  split; [exact Hin|]. split; [reflexivity|].
  exact (proj1 (proj2 (X8_crash_keeps_ids_for_good runner two_gpus [job "a" 1] crashed []
                         crashed 0 OSError [0%nat] 0%nat Hm Hreach eq_refl Hin eq_refl))).
Defined.

(** X9.  A task whose [num_gpus] is negative passes the assertion of line
    97 and is granted at its first poll, whatever the table: the slice of
    line 102 gives it every id with free capacity but the last
    [-num_gpus], while line 113 announces it as a CPU task. *)
Theorem X9_negative_demand_takes_ids task gpus :
  num_gpus task < 0 →
  Slots.fits_table gpus (num_gpus task) = true ∧
  ∃ gpu_ids gpus',
    Slots.try_acquire gpus (num_gpus task) = Some (gpu_ids, gpus') ∧
    Z.of_nat (length gpu_ids) =
      Z.max 0 (Z.of_nat (length (Slots.np_where gpus)) + num_gpus task) ∧
    launch_message task gpu_ids = "launch " +:+ name task +:+ " on CPU ".
Proof.
  intros Hneg. split.
  - unfold Slots.fits_table. apply bool_decide_eq_true. lia.
  - unfold Slots.try_acquire, Slots.count_free.
    rewrite bool_decide_eq_true_2 by lia.
    eexists _, _. split; [done|]. split.
    + unfold Slots.slice_to. rewrite bool_decide_eq_true_2 by done.
      rewrite length_take. lia.
    + unfold launch_message. by rewrite bool_decide_eq_false_2 by lia.
Qed.

Lemma X9_witness :
  num_gpus (job "odd" (-1)) < 0 ∧
  Slots.fits_table [1; 1; 1] (num_gpus (job "odd" (-1))) = true ∧
  Slots.try_acquire [1; 1; 1] (num_gpus (job "odd" (-1)))
    = Some ([0; 1]%nat, [0; 0; 1]).
Proof.
  assert (num_gpus (job "odd" (-1)) < 0) as Hneg by (simpl; lia).
  split; [exact Hneg|].
  split; [exact (proj1 (X9_negative_demand_takes_ids (job "odd" (-1)) [1; 1; 1] Hneg))|].
  reflexivity.
Defined.

(** X10.  The table built by lines 85-89 has one counter for each id up to
    the largest visible id; its capacity is [max_workers_per_gpu] (as a
    64-bit unsigned number) times the number of distinct visible ids, and
    when that number is positive the ids with free capacity are as many
    as the distinct visible ids. *)
Theorem X10_table_as_built all_gpu_ids max_workers_per_gpu :
  length (Slots.init_gpus all_gpu_ids max_workers_per_gpu) =
    (if bool_decide (all_gpu_ids = []) then 0%nat else S (max_list all_gpu_ids)) ∧
  Slots.total_capacity (Slots.init_gpus all_gpu_ids max_workers_per_gpu) =
    Slots.to_uint max_workers_per_gpu * distinct_ids all_gpu_ids ∧
  Slots.count_free (Slots.init_gpus all_gpu_ids max_workers_per_gpu) =
    (if bool_decide (0 < Slots.to_uint max_workers_per_gpu)
     then distinct_ids all_gpu_ids else 0).
Proof.
  split; [apply length_init_gpus|].
  destruct (indicator_table (Slots.init_gpus all_gpu_ids max_workers_per_gpu)
              all_gpu_ids (Slots.to_uint max_workers_per_gpu)) as [Htotal Hfree].
  { intros g x. apply lookup_init_gpus. }
  rewrite Htotal, Hfree. unfold distinct_ids.
  rewrite filter_ids_seq; [done|]. intros g. apply init_gpus_ids_in_range.
Qed.

(** X11.  The table depends only on which ids are visible: the order in
    which the variable lists them and their repetitions change nothing. *)
Theorem X11_table_ignores_order_and_repeats ids1 ids2 max_workers_per_gpu :
  (∀ g, g ∈ ids1 ↔ g ∈ ids2) →
  Slots.init_gpus ids1 max_workers_per_gpu = Slots.init_gpus ids2 max_workers_per_gpu.
Proof. apply init_gpus_same_ids. Qed.

Lemma X11_witness :
  (∀ g, g ∈ Inventory.all_gpu_ids (Some "3,1,3") 8 ↔ g ∈ Inventory.all_gpu_ids (Some "1,3") 8) ∧
  Slots.init_gpus (Inventory.all_gpu_ids (Some "3,1,3") 8) 1 =
  Slots.init_gpus (Inventory.all_gpu_ids (Some "1,3") 8) 1.
Proof.
  assert (∀ g, g ∈ Inventory.all_gpu_ids (Some "3,1,3") 8
               ↔ g ∈ Inventory.all_gpu_ids (Some "1,3") 8) as Hsame.
  { intros g. change (g ∈ [3; 1; 3]%nat ↔ g ∈ [1; 3]%nat).
    rewrite !elem_of_cons. pose proof (not_elem_of_nil g). tauto. }
  split; [exact Hsame|].
  exact (X11_table_ignores_order_and_repeats _ _ 1 Hsame).
Defined.

(** X12.  When every index of the table is a visible id, as it is when the
    variable is absent, and [max_workers_per_gpu = 1], the assertion of
    line 97 is exact in every state a run can reach: it passes if and only
    if the demand is at most the capacity of the table. *)
Theorem X12_assertion_exact_on_dense_table r h tasks s num_gpus :
  dense r h tasks →
  max_workers_per_gpu r = 1 →
  reachable r h tasks s →
  Slots.fits_table (gpus s) num_gpus =
    bool_decide (num_gpus <= Slots.total_capacity (gpus (initial r h tasks))) ∧
  (cuda_visible_devices h = None →
   Slots.total_capacity (gpus (initial r h tasks)) = Z.of_nat (device_count h)).
Proof.
  intros Hdense H1 Hreach.
  assert (Slots.total_capacity (gpus (initial r h tasks))
          = Z.of_nat (length (gpus (initial r h tasks)))) as Htotal.
  { destruct (indicator_table (gpus (initial r h tasks))
                (Inventory.all_gpu_ids (cuda_visible_devices h) (device_count h)) 1)
      as [Htotal _].
    { intros g x Hx. unfold initial in Hx. cbn [gpus] in Hx.
      apply lookup_init_gpus in Hx. by rewrite H1 in Hx. }
    rewrite Htotal.
    replace (filter _ (seq 0 (length (gpus (initial r h tasks)))))
      with (seq 0 (length (gpus (initial r h tasks)))); [rewrite length_seq; lia|].
    symmetry. apply filter_all. apply Forall_forall. intros g Hg.
    apply Hdense. apply elem_of_seq in Hg. lia. }
  split.
  - unfold Slots.fits_table.
    rewrite (length_gpus_eq r h tasks s Hreach), Htotal.
    apply bool_decide_ext. lia.
  - intros Hnone. rewrite Htotal. unfold initial. cbn [gpus]. rewrite Hnone.
    cbn [Inventory.all_gpu_ids]. rewrite length_init_gpus.
    destruct (device_count h) as [|d]; [done|].
    rewrite bool_decide_eq_false_2 by done.
    assert (max_list (seq 0 (S d)) = d) as ->; [|done].
    assert (max_list (seq 0 (S d)) ∈ seq 0 (S d)) as Hin
      by (by apply max_list_elem_of).
    assert (d ∈ seq 0 (S d)) as Hd by (apply elem_of_seq; lia).
    apply max_list_elem_of_le in Hd. apply elem_of_seq in Hin. lia.
Qed.

Lemma X12_witness :
  dense runner plain_host batch ∧
  max_workers_per_gpu runner = 1 ∧
  reachable runner plain_host batch (initial runner plain_host batch) ∧
  Slots.fits_table (gpus (initial runner plain_host batch)) 3 =
    bool_decide (3 <= Slots.total_capacity (gpus (initial runner plain_host batch))) ∧
  Slots.total_capacity (gpus (initial runner plain_host batch)) = 2.
Proof.
  assert (dense runner plain_host batch) as Hdense.
  { intros g Hg. change (g ∈ [0; 1]%nat). change (g < 2)%nat in Hg.
    destruct g as [|[|g]]; [left|right; left|lia]. }
  assert (reachable runner plain_host batch (initial runner plain_host batch)) as Hreach
    by (exists []; reflexivity).
  split; [exact Hdense|]. split; [reflexivity|]. split; [exact Hreach|].
  destruct (X12_assertion_exact_on_dense_table runner plain_host batch _ 3
              Hdense eq_refl Hreach) as [Hfits Htotal].
  split; [exact Hfits|]. exact (Htotal eq_refl).
Defined.

(** X13.  In every state a run can reach, the workers in flight are at most
    [max_num_workers], and the tasks have started in the order of
    submission: before a started task every task has started. *)
Theorem X13_threads_bounded_and_in_order r h tasks s :
  0 <= max_num_workers r →
  reachable r h tasks s →
  in_flight (workers s) <= max_num_workers r ∧ in_order (workers s).
Proof.
  intros Hmax Hreach. split; [|by eapply in_order_reachable].
  revert s Hreach.
  apply (reachable_invariant r h tasks
           (fun s => in_flight (workers s) <= max_num_workers r)).
  - unfold initial. cbn [workers].
    rewrite (in_flight_none (replicate (length tasks) Queued)); [done|].
    apply Forall_forall. by intros w [-> _]%elem_of_replicate.
  - intros a s1 s2. apply in_flight_bounded_step.
Qed.

Lemma X13_witness :
  0 <= max_num_workers runner ∧
  reachable runner two_gpus batch both_held ∧
  in_flight (workers both_held) <= max_num_workers runner ∧
  in_order (workers both_held).
Proof.
  assert (0 <= max_num_workers runner) as Hmax by (simpl; lia).
  assert (reachable runner two_gpus batch both_held) as Hreach
    by (exists [Start 0; Start 1; Poll 0; Poll 1]; reflexivity).
  split; [exact Hmax|]. split; [exact Hreach|].
  exact (X13_threads_bounded_and_in_order runner two_gpus batch both_held Hmax Hreach).
Defined.

(** X14.  The progress bar has advanced once for each worker whose
    [_launch] returned, and for no other: a task that is refused or whose
    [_launch] raises never advances it. *)
Theorem X14_progress_counts_returned_launches r h tasks s :
  reachable r h tasks s →
  count is_progress (log s) = length (filter (fun w => returned w) (workers s)) ∧
  (count is_progress (log s) ≤ length tasks)%nat.
Proof.
  intros Hreach.
  assert (Z.of_nat (count is_progress (log s)) =
          Z.of_nat (length (filter (fun w => returned w) (workers s)))) as Heq.
  { revert s Hreach.
    apply (reachable_invariant r h tasks
      (fun s => Z.of_nat (count is_progress (log s)) =
                Z.of_nat (length (filter (fun w => returned w) (workers s))))).
    - unfold initial. cbn [workers log]. f_equal.
      induction (length tasks) as [|n IH]; [done|]. simpl. by rewrite filter_cons.
    - intros a s1 s2. apply progress_step. }
  split; [lia|].
  rewrite <- (length_workers_reachable r h tasks s Hreach).
  pose proof (length_filter (fun w => returned w) (workers s)). lia.
Qed.

Lemma X14_witness :
  reachable runner two_gpus [job "a" 1] crashed ∧
  count is_progress (log crashed) = 0%nat ∧
  (count is_progress (log crashed) ≤ 1)%nat.
Proof.
  assert (reachable runner two_gpus [job "a" 1] crashed) as Hreach
    by (exists [Start 0; Poll 0; Launch 0 env_spawn_fails]; reflexivity).
  split; [exact Hreach|].
  exact (X14_progress_counts_returned_launches runner two_gpus [job "a" 1] crashed Hreach).
Defined.

Lemma consume_until_refused gpus0 before task after codes :
  length codes = length (before ++ task :: after) →
  Forall (fun t => Slots.fits_table gpus0 (num_gpus t) = true) before →
  Slots.fits_table gpus0 (num_gpus task) = false →
  consume (zip_with (turn_result gpus0) (before ++ task :: after) codes) =
    (outcomes_of before codes, Some AssertionError).
Proof.
  unfold outcomes_of.
  revert codes. induction before as [|t before IH]; intros codes Hlen Hfit Hno.
  - destruct codes as [|c codes]; [done|]. simpl. unfold turn_result. by rewrite Hno.
  - destruct codes as [|c codes]; [done|].
    apply Forall_cons in Hfit as [Ht Hfit].
    assert (length codes = length (before ++ task :: after)) as Hlen'
      by (simpl in Hlen; lia).
    cbn [app zip_with]. unfold turn_result at 1. rewrite Ht.
    cbn [consume]. by rewrite (IH codes Hlen' Hfit Hno).
Qed.

(** X15.  A task that fails the assertion of line 97 does not stop the
    other tasks from being run: when the pool has a thread and the table
    can serve every task that passes the assertion, there is a run to the
    end in which the call of [submit] gives the name and the exit code for
    every task that passes the assertion, whatever the codes, and raises
    AssertionError for the others.  The caller who goes through the
    returned iterator gets the outcomes of the tasks before the first
    refused one and then that AssertionError: the outcomes of the tasks
    after it are not delivered. *)
Theorem X15_refused_task_does_not_stop_others r h tasks codes :
  0 < max_num_workers r →
  length codes = length tasks →
  Forall (fun task =>
            Slots.fits_table (gpus (initial r h tasks)) (num_gpus task) = true →
            Slots.count_free (gpus (initial r h tasks)) >= num_gpus task) tasks →
  launch r h tasks (each_in_turn (gpus (initial r h tasks)) 0 tasks codes) =
    Some (Status (zip_with (turn_result (gpus (initial r h tasks))) tasks codes)) ∧
  ∀ before task after,
    tasks = before ++ task :: after →
    Forall (fun t => Slots.fits_table (gpus (initial r h tasks)) (num_gpus t) = true)
      before →
    Slots.fits_table (gpus (initial r h tasks)) (num_gpus task) = false →
    consume (zip_with (turn_result (gpus (initial r h tasks))) tasks codes) =
      (outcomes_of before codes, Some AssertionError).
Proof.
  intros Hmax Hlen Hserve. split.
  - destruct (each_in_turn_from r h tasks (gpus (initial r h tasks)) Hmax
                ltac:(intros g x; apply init_gpus_range)
                tasks codes [] [] empty_world [] eq_refl eq_refl Hlen
                ltac:(constructor) Hserve) as (w1 & l1 & Hrun).
    unfold launch. rewrite bool_decide_eq_false_2 by lia.
    change (State (gpus (initial r h tasks)) ([] ++ replicate (length tasks) Queued)
              empty_world []) with (initial r h tasks) in Hrun.
    change (length (@nil worker)) with 0%nat in Hrun.
    rewrite Hrun. cbn [mbind option_bind workers app].
    assert (mapM worker_result
              (zip_with (turn_worker (gpus (initial r h tasks))) tasks codes) =
            Some (zip_with (turn_result (gpus (initial r h tasks))) tasks codes)) as ->;
      [|done].
    generalize (gpus (initial r h tasks)) as gpus0. clear. intros gpus0.
    revert codes. induction tasks as [|t tasks IH]; intros [|c codes]; try done.
    cbn [zip_with]. unfold turn_worker at 1, turn_result at 1.
    destruct (Slots.fits_table gpus0 (num_gpus t)); simpl; by rewrite IH.
  - intros before task after Htasks Hfit Hno.
    generalize dependent (gpus (initial r h tasks)). intros gpus0 _ Hfit Hno.
    subst tasks. by apply consume_until_refused.
Qed.

Lemma X15_witness :
  0 < max_num_workers runner ∧
  launch runner only_gpu_1 [job "a" 1; job "huge" 5; job "c" 1]
    (each_in_turn (gpus (initial runner only_gpu_1 [job "a" 1; job "huge" 5; job "c" 1]))
       0 [job "a" 1; job "huge" 5; job "c" 1] [7; 0; 0])
  = Some (Status [Ok ("a", 7); Raise AssertionError; Ok ("c", 0)]) ∧
  consume [Ok ("a", 7); Raise AssertionError; Ok ("c", 0)]
  = ([("a", 7)], Some AssertionError).
Proof.
  assert (0 < max_num_workers runner) as Hmax by (simpl; lia).
  assert (Forall (fun task =>
            Slots.fits_table (gpus (initial runner only_gpu_1
                                      [job "a" 1; job "huge" 5; job "c" 1]))
              (num_gpus task) = true →
            Slots.count_free (gpus (initial runner only_gpu_1
                                      [job "a" 1; job "huge" 5; job "c" 1]))
              >= num_gpus task) [job "a" 1; job "huge" 5; job "c" 1]) as Hserve.
  { repeat (constructor;
      [intros Hfits; first [discriminate Hfits|vm_compute; discriminate]|]).
    constructor. }
  split; [exact Hmax|].
  destruct (X15_refused_task_does_not_stop_others runner only_gpu_1
              [job "a" 1; job "huge" 5; job "c" 1] [7; 0; 0] Hmax eq_refl Hserve)
    as [Hl Hc].
  split; [exact Hl|].
  exact (Hc [job "a" 1] (job "huge" 5) [job "c" 1] eq_refl
           ltac:(repeat constructor) eq_refl).
Defined.

(** X16.  The acquire loop cannot lock the pool up.  From every state a
    run can reach in which no [_launch] has raised, when the pool has a
    thread and the table as built can serve every task, the batch can be
    brought to its end: every task done and every slot counter back at its
    initial value. *)
Theorem X16_batch_can_always_finish r h tasks s :
  0 < max_num_workers r →
  0 <= max_workers_per_gpu r < Slots.uint_modulus →
  Forall (servable (gpus (initial r h tasks))) tasks →
  reachable r h tasks s →
  (∀ i e gpu_ids, workers s !! i ≠ Some (Crashed e gpu_ids)) →
  ∃ s', run r h tasks (completion (workers s)) s = Some s' ∧
        finished s' = true ∧
        Forall (fun w => is_done w = true) (workers s') ∧
        gpus s' = gpus (initial r h tasks).
Proof.
  intros Hmax Hm Hserve Hreach Hcrash.
  destruct (run_completion r h tasks s Hmax Hm Hserve Hreach Hcrash)
    as (s' & Hrun & Hdone & Hgpus).
  exists s'. split; [done|]. split; [|done].
  unfold finished. apply forallb_forall. intros w Hw%list_elem_of_In.
  rewrite Forall_forall in Hdone. specialize (Hdone w Hw).
  destruct w; try done; by apply bool_decide_eq_true.
Qed.

Lemma X16_witness :
  0 < max_num_workers runner ∧
  0 <= max_workers_per_gpu runner < Slots.uint_modulus ∧
  Forall (servable (gpus (initial runner two_gpus batch))) batch ∧
  reachable runner two_gpus batch both_held ∧
  (∀ i e gpu_ids, workers both_held !! i ≠ Some (Crashed e gpu_ids)) ∧
  ∃ s', run runner two_gpus batch (completion (workers both_held)) both_held = Some s' ∧
        finished s' = true ∧
        Forall (fun w => is_done w = true) (workers s') ∧
        gpus s' = gpus (initial runner two_gpus batch).
Proof.
  assert (0 < max_num_workers runner) as Hmax by (simpl; lia).
  assert (0 <= max_workers_per_gpu runner < Slots.uint_modulus) as Hm
    by (unfold Slots.uint_modulus; simpl; lia).
  assert (Forall (servable (gpus (initial runner two_gpus batch))) batch) as Hserve
    by (repeat (constructor; [split; [reflexivity|vm_compute; discriminate]|]); constructor).
  assert (reachable runner two_gpus batch both_held) as Hreach
    by (exists [Start 0; Start 1; Poll 0; Poll 1]; reflexivity).
  assert (∀ i e gpu_ids, workers both_held !! i ≠ Some (Crashed e gpu_ids)) as Hcrash
    by (intros [|[|[|i]]] e gpu_ids; discriminate).
  split; [exact Hmax|]. split; [exact Hm|]. split; [exact Hserve|].
  split; [exact Hreach|]. split; [exact Hcrash|].
  exact (X16_batch_can_always_finish runner two_gpus batch both_held
           Hmax Hm Hserve Hreach Hcrash).
Defined.

(** X17.  In debug mode, when nothing raises, [launch] returns the name
    of each task with the code 0, and what the runner itself does is, task
    after task in the order given: create tmp/, dump the config file, run
    the command (in process when it starts with "python", else as a child
    without a log), remove the config file.  The config file of a task is
    removed before the one of the next task is dumped. *)
Theorem X17_debug_mode_is_sequential pid env tasks w :
  forallb (DebugMode.calm pid env) tasks = true →
  (DebugMode.launch pid env tasks w).1 = Ok (DebugMode.all_zero tasks) ∧
  trace (DebugMode.launch pid env tasks w).2 =
    trace w ++ flat_map (debug_effects pid) tasks.
Proof.
  intros Hcalm.
  assert (DebugMode.launch pid env tasks w =
          (Ok (DebugMode.all_zero tasks), after_debug pid tasks w)) as ->; [|done].
  unfold DebugMode.launch.
  rewrite <- (app_nil_r tasks) at 1.
  rewrite (launch_loop_app_calm pid env tasks [] [] w Hcalm). done.
Qed.

Lemma X17_witness :
  forallb (DebugMode.calm 4242 (env_exit 3)) mixed = true ∧
  (DebugMode.launch 4242 (env_exit 3) mixed empty_world).1 = Ok [("p", 0); ("a", 0)] ∧
  trace (DebugMode.launch 4242 (env_exit 3) mixed empty_world).2 =
    [Mkdir "tmp/"; Dump "tmp/4242_params.py";
     RunInProcess "p"; Remove "tmp/4242_params.py";
     Mkdir "tmp/"; Dump "tmp/4242_params.py";
     Spawn "{task_cmd} tmp/4242_params.py" None; Remove "tmp/4242_params.py"].
Proof.
  split; [reflexivity|].
  exact (X17_debug_mode_is_sequential 4242 (env_exit 3) mixed empty_world eq_refl).
Defined.



(** X19.  In every state a run can reach, a demand above the number of
    ids that have free capacity in the table as built is never granted:
    each poll of lines 100-106 fails; and the assertion of line 97 answers
    as it does on the table as built, whose length never changes. *)
Theorem X19_never_granted_above_free_ids r h tasks s num_gpus :
  0 <= max_workers_per_gpu r < Slots.uint_modulus →
  reachable r h tasks s →
  Slots.count_free (gpus (initial r h tasks)) < num_gpus →
  Slots.try_acquire (gpus s) num_gpus = None ∧
  Slots.fits_table (gpus s) num_gpus =
    Slots.fits_table (gpus (initial r h tasks)) num_gpus.
Proof. apply Claims.never_granted_above_free_ids. Qed.

Lemma X19_witness :
  0 <= max_workers_per_gpu runner < Slots.uint_modulus ∧
  reachable runner only_gpu_1 greedy still_polling ∧
  Slots.count_free (gpus (initial runner only_gpu_1 greedy)) < 2 ∧
  Slots.try_acquire (gpus still_polling) 2 = None ∧
  Slots.fits_table (gpus still_polling) 2 =
    Slots.fits_table (gpus (initial runner only_gpu_1 greedy)) 2.
Proof.
  assert (0 <= max_workers_per_gpu runner < Slots.uint_modulus) as Hm
    by (unfold Slots.uint_modulus; simpl; lia).
  assert (reachable runner only_gpu_1 greedy still_polling) as Hreach
    by (exists [Start 0; Poll 0; Poll 0; Poll 0]; reflexivity).
  assert (Slots.count_free (gpus (initial runner only_gpu_1 greedy)) < 2) as Hlt
    by reflexivity.
  split; [exact Hm|]. split; [exact Hreach|]. split; [exact Hlt|].
  exact (X19_never_granted_above_free_ids runner only_gpu_1 greedy still_polling 2
           Hm Hreach Hlt).
Defined.

Lemma scan_separator sep rest prev :
  forallb (fun c => (nat_of_ascii c <? 128)%nat && negb (Str.is_digit c)
                    && negb (Str.is_minus c)) (chars sep) = true →
  Inventory.not_minus prev →
  ∃ prev', Inventory.not_minus prev' ∧
    Inventory.findall_from prev None (sep +:+ rest) =
    Inventory.findall_from prev' None rest.
Proof.
  unfold chars. revert prev.
  induction sep as [|c sep IH]; intros prev Hsep Hprev; simpl in *.
  - by exists prev.
  - apply andb_true_iff in Hsep as [Hc Hsep].
    apply andb_true_iff in Hc as [Hc Hm]. apply andb_true_iff in Hc as [_ Hd].
    apply negb_true_iff in Hd, Hm. rewrite Hd. simpl.
    apply (IH (Some c)); [done|]. exact Hm.
Qed.

Lemma scan_listing rest first prev :
  Forall (fun p => separator p.1 = true) rest →
  Inventory.not_minus prev →
  map Str.int (Inventory.findall_from prev None (listing first rest))
  = first :: map snd rest.
Proof.
  revert first prev.
  induction rest as [|[sep n] rest IH]; intros first prev Hrest Hprev.
  - cbn [listing map].
    rewrite scan_start by (done || apply str_nonempty || apply str_digits).
    simpl. by rewrite int_str.
  - apply Forall_cons in Hrest as [Hsep Hrest]. cbn [fst] in Hsep.
    unfold separator in Hsep. apply andb_true_iff in Hsep as [Hne Hsep].
    cbn [listing map snd].
    rewrite scan_start by (done || apply str_nonempty || apply str_digits).
    destruct sep as [|c sep]; [by rewrite bool_decide_eq_true_2 in Hne|].
    unfold chars in Hsep. cbn [list_ascii_of_string forallb] in Hsep.
    apply andb_true_iff in Hsep as [Hc Hsep].
    apply andb_true_iff in Hc as [Hc Hm]. apply andb_true_iff in Hc as [_ Hd].
    apply negb_true_iff in Hd, Hm.
    change (String c sep +:+ listing n rest) with (String c (sep +:+ listing n rest)).
    cbn [Inventory.findall_from]. rewrite Hd.
    destruct (scan_separator sep (listing n rest) (Some c) Hsep Hm)
      as (prev' & Hprev' & ->).
    cbn [map]. rewrite int_str. f_equal. by apply IH.
Qed.

(** X20.  When the value of the variable lists ids in decimal, one after
    the other, with separators of one or more ASCII characters that are
    neither digits nor minus signs between them, the inventory is these
    ids, in the order and with the repetitions of the value. *)
Theorem X20_listed_ids_are_the_inventory first rest device_count :
  Forall (fun p => separator p.1 = true) rest →
  Inventory.all_gpu_ids (Some (listing first rest)) device_count
  = first :: map snd rest.
Proof.
  intros Hrest. unfold Inventory.all_gpu_ids, Inventory.findall.
  by apply scan_listing.
Qed.

Lemma X20_witness :
  Forall (fun p => separator p.1 = true) [(",", 1%nat); (", ", 3%nat); (" ", 1%nat)] ∧
  listing 0 [(",", 1%nat); (", ", 3%nat); (" ", 1%nat)] = "0,1, 3 1" ∧
  Inventory.all_gpu_ids (Some "0,1, 3 1") 8 = [0; 1; 3; 1]%nat.
Proof.
  assert (Forall (fun p => separator p.1 = true)
            [(",", 1%nat); (", ", 3%nat); (" ", 1%nat)]) as Hrest
    by (repeat constructor).
  split; [exact Hrest|]. split; [reflexivity|].
  exact (X20_listed_ids_are_the_inventory 0 [(",", 1%nat); (", ", 3%nat); (" ", 1%nat)]
           8 Hrest).
Defined.

End Extra.
